(** * PDEG to Home Assistant bridge: the command protocol of [main.py]

    A shallow embedding of the de-framing, parsing, mapping and
    per-connection handling code of [main.py], followed by the properties
    of the protocol proved about it.

    Conventions.
    - A Python [bytes] value is a [list byte]; a Python [str] is a list of
      Unicode code points ([text]).
    - What CPython takes from the Unicode database for code points outside
      ASCII (white space, lower-casing, decimal digits) and the interpreter's
      limit on the length of integer literals are fields of a
      [python_runtime]; for ASCII everything is written out.
    - Raising an exception is a value: pure functions return a [result],
      code with effects runs in the monad [M], whose outcomes are a value, a
      raised exception, or the termination of the process by [os._exit]. *)

From Stdlib Require Import ZArith NArith Floats Uint63 Lia.
From Stdlib Require Import Strings.Byte Strings.Ascii Strings.String.
From stdpp Require Import gmap strings list.

(** ** Text *)

Abbreviation text := (list N).

(** A literal of the source, as code points. *)
Definition txt (s : string) : text := N_of_ascii <$> list_ascii_of_string s.

(** A [bytes] literal. *)
Definition raw_of (s : string) : list byte := list_byte_of_string s.

Record python_runtime := {
  (** [Py_UNICODE_ISSPACE] on a code point above 127 *)
  unicode_space : N → bool;
  (** the lower-casing of the code point above 127 that stands at an index
      of a string (the string matters for a capital sigma) *)
  unicode_lower : text → nat → N → text;
  (** [Py_UNICODE_TODECIMAL] on a code point above 127 *)
  unicode_decimal : N → option N;
  (** [sys.get_int_max_str_digits()]; 0 when there is no limit *)
  int_max_str_digits : nat
}.

(** A runtime whose Unicode tables are empty outside ASCII. On ASCII text
    every runtime computes what this one computes. *)
Definition ascii_runtime : python_runtime :=
  {| unicode_space := λ _, false;
     unicode_lower := λ _ _ c, [c];
     unicode_decimal := λ _, None;
     int_max_str_digits := 4300 |}.

Inductive transport_failure := ConnectionRefused | Timeout | DNSFailure.

(** The exceptions the code meets. All but [CancelledError] are subclasses
    of [Exception]. *)
Inductive exn :=
| ValueError (msg : string)
| RuntimeError (status : Z) (snippet : text)
| RequestException (k : transport_failure)
| OverflowError
| OSError
| CancelledError.

Definition is_Exception (e : exn) : bool :=
  match e with CancelledError => false | _ => true end.

Definition is_ValueError (e : exn) : bool :=
  match e with ValueError _ => true | _ => false end.

Inductive result (A : Type) :=
| Ok (a : A)
| Raised (e : exn).
Arguments Ok {A} a.
Arguments Raised {A} e.

Section Text.
Context (rt : python_runtime).

(** [Py_UNICODE_ISSPACE]: what [str.strip()] removes and what [\s]
    matches in a [str] pattern. *)
Definition is_space (c : N) : bool :=
  if (c <? 128)%N
  then ((9 <=? c) && (c <=? 13) || (28 <=? c) && (c <=? 32))%N
  else unicode_space rt c.

Fixpoint lstrip (s : text) : text :=
  match s with
  | [] => []
  | c :: s' => if is_space c then lstrip s' else s
  end.

Fixpoint rstrip (s : text) : text :=
  match s with
  | [] => []
  | c :: s' =>
      match rstrip s' with
      | [] => if is_space c then [] else [c]
      | r => c :: r
      end
  end.

(** [s.strip()] *)
Definition strip (s : text) : text := rstrip (lstrip s).

(** [re.split(r"\s+", s)]: [cur] is the piece being read, reversed, and
    [in_sep] says that the previous character was matched by [\s+]. A
    piece is produced at the start of every match and at the end of the
    string, empty or not. *)
Fixpoint split_go (cur : text) (in_sep : bool) (s : text) : list text :=
  match s with
  | [] => [reverse cur]
  | c :: s' =>
      if is_space c
      then (if in_sep then split_go [] true s'
            else reverse cur :: split_go [] true s')
      else split_go (c :: cur) false s'
  end.

Definition re_split_ws (s : text) : list text := split_go [] false s.

Definition ascii_lower (c : N) : N :=
  if ((65 <=? c) && (c <=? 90))%N then (c + 32)%N else c.

Fixpoint lower_from (whole : text) (i : nat) (s : text) : text :=
  match s with
  | [] => []
  | c :: s' =>
      (if (c <? 128)%N then [ascii_lower c] else unicode_lower rt whole i c)
        ++ lower_from whole (S i) s'
  end.

(** [s.lower()] *)
Definition lower (s : text) : text := lower_from s 0 s.

(** [s.endswith(chr(c))] *)
Definition endswith (s : text) (c : N) : bool :=
  match last s with
  | Some d => bool_decide (d = c)
  | None => false
  end.

(** [s[:-1]] *)
Definition drop_last (s : text) : text := take (length s - 1) s.

(** *** [int(s)]

    [_PyUnicode_TransformDecimalAndSpaceToASCII] followed by
    [PyLong_FromString] in base 10. *)

Definition to_ascii_decimal (c : N) : N :=
  if (c <? 127)%N then c
  else if is_space c then 32%N
  else match (if (c <? 128)%N then None else unicode_decimal rt c) with
       | Some d => (48 + d)%N
       | None => 63%N
       end.

(** [Py_ISSPACE] *)
Definition is_c_space (c : N) : bool :=
  ((9 <=? c) && (c <=? 13) || (c =? 32))%N.

Fixpoint skip_c_space (s : text) : text :=
  match s with
  | [] => []
  | c :: s' => if is_c_space c then skip_c_space s' else s
  end.

Definition digit_value (c : N) : option Z :=
  if ((48 <=? c) && (c <=? 57))%N then Some (Z.of_N c - 48)%Z else None.

(** The digits of the literal: [ndig] digits read so far with value [acc],
    [prev_us] when the previous character was an underscore. Two
    underscores in a row and an underscore at the end are refused. The
    scan stops at the first character that is neither, and gives back
    what follows. *)
Fixpoint scan_digits (prev_us : bool) (ndig : nat) (acc : Z) (s : text)
  : option (nat * Z * text) :=
  match s with
  | [] => if prev_us then None else Some (ndig, acc, [])
  | c :: s' =>
      if (c =? 95)%N
      then (if prev_us then None else scan_digits true ndig acc s')
      else match digit_value c with
           | Some d => scan_digits false (S ndig) (10 * acc + d)%Z s'
           | None => if prev_us then None else Some (ndig, acc, s)
           end
  end.

(** The limit on the digits of a literal is looked at for more than 640
    digits only, and a limit of 0 switches it off. *)
Definition within_digit_limit (ndig : nat) : bool :=
  (ndig <=? 640)%nat
  || (int_max_str_digits rt =? 0)%nat
  || (ndig <=? int_max_str_digits rt)%nat.

Definition py_int (s : text) : option Z :=
  let s1 := skip_c_space (to_ascii_decimal <$> s) in
  let '(negative, s2) :=
    match s1 with
    | c :: s' => if (c =? 43)%N then (false, s')
                 else if (c =? 45)%N then (true, s')
                 else (false, s1)
    | [] => (false, s1)
    end in
  match s2 with
  | c :: _ =>
      if (c =? 95)%N then None
      else match scan_digits false 0 0 s2 with
           | Some (ndig, v, rest) =>
               if bool_decide (ndig = 0%nat) then None
               else if negb (within_digit_limit ndig) then None
               else match skip_c_space rest with
                    | [] => Some (if negative : bool then (- v)%Z else v)
                    | _ => None
                    end
           | None => None
           end
  | [] => None
  end.
End Text.

(** ** Numbers *)

(** The [float] of a Python [int] that a double holds exactly. *)
Definition float_of_int (n : Z) : float := PrimFloat.of_uint63 (Uint63.of_Z n).

(** [a / b] for two non-negative [int]s below 2^53 *)
Definition true_div (a b : Z) : float :=
  PrimFloat.div (float_of_int a) (float_of_int b).

(** The integer nearest to [n / d], the even one of the two at a tie. *)
Definition round_half_even (n d : Z) : Z :=
  let q := (n / d)%Z in
  let r := (n mod d)%Z in
  if (2 * r <? d)%Z then q
  else if (d <? 2 * r)%Z then (q + 1)%Z
  else if Z.even q then q else (q + 1)%Z.

(** [round(x)] of a [float]: [float.__round__] without [ndigits] rounds to
    the nearest integer and takes the even one at a tie; it raises on an
    infinity ([OverflowError]) and on a NaN ([ValueError]). *)
Definition py_round (x : float) : result Z :=
  match Prim2SF x with
  | S754_zero _ => Ok 0%Z
  | S754_finite neg m e =>
      let v := if (0 <=? e)%Z then (Z.pos m * 2 ^ e)%Z
               else round_half_even (Z.pos m) (2 ^ (- e)) in
      Ok (if neg then (- v)%Z else v)
  | S754_infinity _ => Raised OverflowError
  | S754_nan => Raised (ValueError "cannot convert float NaN to integer")
  end.

(** ** [parse_command] *)

Definition command : Type := text * text * option Z.

Section Parser.
Context (rt : python_runtime).

Definition parse_command (line : text) : result command :=
  if bool_decide (line = []) then Raised (ValueError "Empty command")
  else
    match re_split_ws rt (strip rt line) with
    | p0 :: p1 :: more =>
        let entity_id := lower rt p0 in
        let action := lower rt p1 in
        if negb (bool_decide (action = txt "on") || bool_decide (action = txt "off"))
        then Raised (ValueError "Action must be ON or OFF")
        else
          match more with
          | p2 :: _ =>
              if bool_decide (action = txt "on") then
                let raw_bri := lower rt (strip rt p2) in
                if endswith raw_bri 37 then
                  match py_int rt (drop_last raw_bri) with
                  | None =>
                      Raised (ValueError "Brightness percentage must be an integer 0..100%")
                  | Some pct =>
                      if negb ((0 <=? pct)%Z && (pct <=? 100)%Z)
                      then Raised (ValueError "Brightness percentage out of range 0..100%")
                      else
                        match py_round (true_div (pct * 255) 100) with
                        | Ok brightness => Ok (entity_id, action, Some brightness)
                        | Raised e => Raised e
                        end
                  end
                else
                  match py_int rt raw_bri with
                  | None =>
                      Raised (ValueError "Brightness must be an integer 0..255 or '0..100%'")
                  | Some bri =>
                      if negb ((0 <=? bri)%Z && (bri <=? 255)%Z)
                      then Raised (ValueError "Brightness out of range 0..255")
                      else Ok (entity_id, action, Some bri)
                  end
              else Ok (entity_id, action, None)
          | [] => Ok (entity_id, action, None)
          end
    | _ => Raised (ValueError "Expected: <entity_id> <on|off> [brightness]")
    end.
End Parser.

(** ** [clean_command] *)

(** A continuation byte of UTF-8, 0x80 to 0xBF. *)
Definition is_continuation (b : N) : bool := ((128 <=? b) && (b <=? 191))%N.

(** [bytes.decode("utf-8", errors="ignore")] on the values of the bytes.
    CPython reports an invalid start byte as one byte, a sequence broken at
    its k-th continuation byte as its first k bytes, and a sequence cut by
    the end of the input as all that is left; the [ignore] handler drops
    what is reported and decoding goes on behind it. *)
Fixpoint decode_utf8_ignore (bs : list N) : text :=
  match bs with
  | [] => []
  | b0 :: r0 =>
      if (b0 <? 128)%N then b0 :: decode_utf8_ignore r0
      else if (b0 <? 194)%N then decode_utf8_ignore r0
      else if (b0 <? 224)%N then
        match r0 with
        | [] => []
        | b1 :: r1 =>
            if is_continuation b1
            then ((b0 - 192) * 64 + (b1 - 128))%N :: decode_utf8_ignore r1
            else decode_utf8_ignore r0
        end
      else if (b0 <? 240)%N then
        match r0 with
        | [] => []
        | b1 :: r1 =>
            if negb (is_continuation b1)
               || (if (b1 <? 160)%N then (b0 =? 224)%N else (b0 =? 237)%N)
            then decode_utf8_ignore r0
            else
              match r1 with
              | [] => []
              | b2 :: r2 =>
                  if is_continuation b2
                  then ((b0 - 224) * 4096 + (b1 - 128) * 64 + (b2 - 128))%N
                         :: decode_utf8_ignore r2
                  else decode_utf8_ignore r1
              end
        end
      else if (b0 <? 245)%N then
        match r0 with
        | [] => []
        | b1 :: r1 =>
            if negb (is_continuation b1)
               || (if (b1 <? 144)%N then (b0 =? 240)%N else (b0 =? 244)%N)
            then decode_utf8_ignore r0
            else
              match r1 with
              | [] => []
              | b2 :: r2 =>
                  if negb (is_continuation b2) then decode_utf8_ignore r1
                  else
                    match r2 with
                    | [] => []
                    | b3 :: r3 =>
                        if is_continuation b3
                        then ((b0 - 240) * 262144 + (b1 - 128) * 4096
                              + (b2 - 128) * 64 + (b3 - 128))%N
                               :: decode_utf8_ignore r3
                        else decode_utf8_ignore r2
                    end
              end
        end
      else decode_utf8_ignore r0
  end.

(** [(65 <= b <= 90) or (97 <= b <= 122)] *)
Definition is_ascii_letter (b : byte) : bool :=
  let n := Byte.to_N b in
  ((65 <=? n) && (n <=? 90) || (97 <=? n) && (n <=? 122))%N.

(** The loop of [clean_command]: the index of the first letter, counted
    from [i]. *)
Fixpoint find_start (i : nat) (raw : list byte) : option nat :=
  match raw with
  | [] => None
  | b :: raw' => if is_ascii_letter b then Some i else find_start (S i) raw'
  end.

Definition clean_command (rt : python_runtime) (raw : list byte) : text :=
  match find_start 0 raw with
  | None => []
  | Some start => strip rt (decode_utf8_ignore (Byte.to_N <$> drop start raw))
  end.

(** ** The monad of the code with effects *)

Inductive pyval :=
| PyStr (s : text)
| PyInt (n : Z).

Inductive level := INFO | WARNING | ERROR.

#[global] Instance level_eq_dec : EqDecision level.
Proof. solve_decision. Defined.

(** The log calls of [main.py], by the statement that makes them. *)
Inductive log_record :=
| LogJson (svc_domain service : text) (data : gmap string pyval)
| LogUrl (url : text)
| LogRx (peer : text) (line : text)
| LogInputError (e : exn) (line : text)
| LogHACall (domain service : text) (payload : gmap string pyval)
| LogBuildError (e : exn) (line : text)
| LogOK
| LogFatal (e : exn).

Inductive event :=
| Log (lvl : level) (r : log_record)
| Post (url : text) (headers : gmap string text) (json : gmap string pyval) (timeout : Z)
| Close
| WaitClosed
| OsExit (code : Z).

(** How a statement ends: with a value, with an exception, with the
    [return] of the enclosing function, or with the process terminated by
    [os._exit]. *)
Inductive outcome (A : Type) :=
| Val (a : A)
| Raise (e : exn)
| Return
| Exited (code : Z).
Arguments Val {A} a.
Arguments Raise {A} e.
Arguments Return {A}.
Arguments Exited {A} code.

Definition M (A : Type) : Type := list event * outcome A.

Definition ret {A} (a : A) : M A := ([], Val a).

Definition bind {A B} (m : M A) (f : A → M B) : M B :=
  match m with
  | (t, Val a) => let '(t', o) := f a in (t ++ t', o)
  | (t, Raise e) => (t, Raise e)
  | (t, Return) => (t, Return)
  | (t, Exited c) => (t, Exited c)
  end.

Notation "x ← m ; k" := (bind m (λ x, k))
  (at level 20, m at level 100, k at level 200, only parsing).
Notation "m ;; k" := (bind m (λ _, k))
  (at level 100, k at level 200, right associativity, only parsing).

Definition emit (e : event) : M unit := ([e], Val tt).
Definition log (lvl : level) (r : log_record) : M unit := emit (Log lvl r).
Definition raise {A} (e : exn) : M A := ([], Raise e).
Definition return_ {A} : M A := ([], Return).

(** [os._exit(code)]: the process ends here; no handler and no [finally]
    block runs after it. *)
Definition os_exit {A} (code : Z) : M A := ([OsExit code], Exited code).

Definition lift {A} (r : result A) : M A :=
  match r with
  | Ok a => ret a
  | Raised e => raise e
  end.

(** [try: m  except <catches> as e: h e] *)
Definition try_except {A} (m : M A) (catches : exn → bool) (h : exn → M A) : M A :=
  match m with
  | (t, Raise e) => if catches e then let '(t', o) := h e in (t ++ t', o) else m
  | _ => m
  end.

(** [try: m  finally: fin]. The block [fin] runs when [m] ends with a value,
    an exception or a [return], and what [m] ended with stands unless [fin]
    itself ends otherwise. It does not run when [m] terminated the
    process. *)
Definition try_finally {A} (m : M A) (fin : M unit) : M A :=
  match m with
  | (t, Exited c) => (t, Exited c)
  | (t, o) =>
      match fin with
      | (t', Val _) => (t ++ t', o)
      | (t', Raise e) => (t ++ t', Raise e)
      | (t', Return) => (t ++ t', Return)
      | (t', Exited c) => (t ++ t', Exited c)
      end
  end.

(** The body of a function that returns [None]: a [return] ends it. *)
Definition function (m : M unit) : M unit :=
  match m with
  | (t, Return) => (t, Val tt)
  | _ => m
  end.

(** ** [domain_from_entity] and [build_service_call] *)

(** [s.split(".", 1)[0]] *)
Fixpoint before_first_dot (s : text) : text :=
  match s with
  | [] => []
  | c :: s' => if (c =? 46)%N then [] else c :: before_first_dot s'
  end.

Definition domain_from_entity (entity_id : text) : result text :=
  if bool_decide (46%N ∉ entity_id)
  then Raised (ValueError "entity_id must include domain, e.g. 'light.shelly_bulb_1'")
  else Ok (before_first_dot entity_id).

Definition build_service_call (entity_id action : text) (brightness : option Z)
  : M (text * text * gmap string pyval) :=
  dom ← lift (domain_from_entity entity_id);
  let data : gmap string pyval := {[ "entity_id" := PyStr entity_id ]} in
  let '(svc_domain, service, data) :=
    if bool_decide (dom = txt "light") then
      let service := if bool_decide (action = txt "on") then txt "turn_on" else txt "turn_off" in
      let data :=
        match brightness with
        | Some b => if bool_decide (action = txt "on")
                    then <["brightness" := PyInt b]> data else data
        | None => data
        end in
      (txt "light", service, data)
    else if bool_decide (dom = txt "switch") then
      (txt "switch",
       if bool_decide (action = txt "on") then txt "turn_on" else txt "turn_off",
       data)
    else
      (txt "homeassistant",
       if bool_decide (action = txt "on") then txt "turn_on" else txt "turn_off",
       data) in
  log INFO (LogJson svc_domain service data);;
  ret (svc_domain, service, data).

(** ** [call_ha_service] *)

Record config := {
  HA_URL : text;
  HA_TOKEN : text
}.

(** What [requests.post] comes back with. *)
Inductive post_result :=
| Response (status_code : Z) (body : text)
| Failed (k : transport_failure).

(** [requests.post(url, headers=headers, json=data, timeout=5)] against a
    hub that answers [answer]. *)
Definition requests_post (answer : post_result)
    (url : text) (headers : gmap string text) (data : gmap string pyval) (timeout : Z)
  : M (Z * text) :=
  emit (Post url headers data timeout);;
  match answer with
  | Response status_code body => ret (status_code, body)
  | Failed k => raise (RequestException k)
  end.

(** [f"{HA_URL}/api/services/{domain}/{service}"] *)
Definition service_url (cfg : config) (domain service : text) : text :=
  HA_URL cfg ++ txt "/api/services/" ++ domain ++ txt "/" ++ service.

(** The [headers] of [call_ha_service]. *)
Definition request_headers (cfg : config) : gmap string text :=
  <["Content-Type" := txt "application/json"]>
    {[ "Authorization" := txt "Bearer " ++ HA_TOKEN cfg ]}.

Definition call_ha_service (cfg : config) (hub : text → gmap string pyval → post_result)
    (domain service : text) (data : gmap string pyval) : M unit :=
  let url := service_url cfg domain service in
  log INFO (LogUrl url);;
  let headers := request_headers cfg in
  resp ← requests_post (hub url data) url headers data 5;
  if (400 <=? resp.1)%Z
  then raise (RuntimeError resp.1 (take 200 resp.2))
  else ret tt.

(** ** [handle] *)

(** What one connection and the hub do during one run of the handler. *)
Record connection := {
  peername : text;
  (** [await reader.readline()] *)
  readline : result (list byte);
  (** the hub's answer to a POST of a body to a URL *)
  hub : text → gmap string pyval → post_result;
  (** what [writer.close()] and [writer.wait_closed()] raise, if anything *)
  close_raises : option exn;
  wait_closed_raises : option exn
}.

Definition writer_close (conn : connection) : M unit :=
  emit Close;;
  match close_raises conn with Some e => raise e | None => ret tt end.

Definition writer_wait_closed (conn : connection) : M unit :=
  emit WaitClosed;;
  match wait_closed_raises conn with Some e => raise e | None => ret tt end.

(** [await asyncio.to_thread(f, ...)]: the awaiting coroutine gets what the
    call returns or raises. *)
Definition to_thread {A} (m : M A) : M A := m.

(** The [finally] block of [handle]. *)
Definition release (conn : connection) : M unit :=
  try_except (writer_close conn;; writer_wait_closed conn)
    is_Exception (λ _, ret tt).

Definition handle (rt : python_runtime) (cfg : config) (conn : connection) : M unit :=
  function
    (try_finally
       (try_except
          (let peer := peername conn in
           raw ← lift (readline conn);
           let line := clean_command rt raw in
           log INFO (LogRx peer line);;
           cmd ← try_except (lift (parse_command rt line)) is_ValueError
                   (λ ve, log WARNING (LogInputError ve line);; return_);
           let '(entity_id, action, brightness) := cmd in
           call ← try_except
                    (r ← build_service_call entity_id action brightness;
                     let '(domain, service, payload) := r in
                     log INFO (LogHACall domain service payload);;
                     ret r)
                    is_ValueError
                    (λ ve, log WARNING (LogBuildError ve line);; return_);
           let '(domain, service, payload) := call in
           to_thread (call_ha_service cfg (hub conn) domain service payload);;
           log INFO LogOK)
          is_Exception
          (λ e, log ERROR (LogFatal e);; os_exit 1))
       (release conn)).

(** ** [bytes_hex] *)

(** One digit of [f"{b:02X}"]: [0] to [9], then [A] to [F]. *)
Definition hex_digit (n : N) : N :=
  if (n <? 10)%N then (48 + n)%N else (55 + n)%N.

(** [f"{b:02X}"] *)
Definition format_02X (b : byte) : text :=
  [hex_digit (Byte.to_N b / 16); hex_digit (Byte.to_N b mod 16)].

(** [sep.join(pieces)] *)
Fixpoint join (sep : text) (pieces : list text) : text :=
  match pieces with
  | [] => []
  | p :: ps =>
      match ps with
      | [] => p
      | _ => p ++ sep ++ join sep ps
      end
  end.

Definition bytes_hex (raw : list byte) : text :=
  join [32%N] (format_02X <$> raw).

(** ** [config.py]: [BRI_MAP] *)

(** [s.split(chr(sep))]: [cur] is the piece being read, reversed. A piece is
    produced at every separator and at the end of the string, empty or
    not. *)
Fixpoint split_on_go (sep : N) (cur : text) (s : text) : list text :=
  match s with
  | [] => [reverse cur]
  | c :: s' =>
      if (c =? sep)%N then reverse cur :: split_on_go sep [] s'
      else split_on_go sep (c :: cur) s'
  end.

Definition split_on (sep : N) (s : text) : list text := split_on_go sep [] s.

(** [[int(x) for x in items]]: the first item that [int] refuses raises. *)
Fixpoint int_each (rt : python_runtime) (items : list text) : result (list Z) :=
  match items with
  | [] => Ok []
  | x :: items' =>
      match py_int rt x with
      | None => Raised (ValueError "invalid literal for int() with base 10")
      | Some n =>
          match int_each rt items' with
          | Ok ns => Ok (n :: ns)
          | Raised e => Raised e
          end
      end
  end.

(** [os.getenv(name, default)] for a variable whose value, if it is set, is
    [value]. *)
Definition getenv (value : option text) (default : text) : text :=
  match value with
  | Some v => v
  | None => default
  end.

(** The assignment of [BRI_MAP] at import, [bri_map] being the value of the
    environment variable of that name. *)
Definition BRI_MAP (rt : python_runtime) (bri_map : option text) : result (list Z) :=
  int_each rt (split_on 44 (getenv bri_map (txt "100,60,20,0"))).

(** ** Notions of the specification *)

(** The whitespace-separated tokens of a line: its maximal runs of
    characters that are not white space. [cur] is the run being read,
    reversed. *)
Fixpoint tokens_go (rt : python_runtime) (cur : text) (s : text) : list text :=
  match s with
  | [] => match cur with [] => [] | _ => [reverse cur] end
  | c :: s' =>
      if is_space rt c
      then match cur with
           | [] => tokens_go rt [] s'
           | _ => reverse cur :: tokens_go rt [] s'
           end
      else tokens_go rt (c :: cur) s'
  end.

Definition tokens (rt : python_runtime) (line : text) : list text :=
  tokens_go rt [] line.

(** A brightness token is valid when it is an integer from 0 to 100 followed
    by [%], or an integer from 0 to 255. *)
Definition valid_brightness (rt : python_runtime) (tok : text) : bool :=
  if endswith tok 37
  then match py_int rt (drop_last tok) with
       | Some pct => (0 <=? pct)%Z && (pct <=? 100)%Z
       | None => false
       end
  else match py_int rt tok with
       | Some bri => (0 <=? bri)%Z && (bri <=? 255)%Z
       | None => false
       end.

(** The UTF-8 encoding of a code point, as values of bytes. *)
Definition utf8_encode (c : N) : list N :=
  if (c <? 128)%N then [c]
  else if (c <? 2048)%N then [192 + c / 64; 128 + c mod 64]%N
  else if (c <? 65536)%N
       then [224 + c / 4096; 128 + (c / 64) mod 64; 128 + c mod 64]%N
       else [240 + c / 262144; 128 + (c / 4096) mod 64;
             128 + (c / 64) mod 64; 128 + c mod 64]%N.

(** A Unicode scalar value: a code point up to U+10FFFF that is not a
    surrogate. *)
Definition is_scalar (c : N) : Prop :=
  (c < 1114112)%N ∧ ¬ (55296 ≤ c ≤ 57343)%N.

(** The last character of a string is not white space. *)
Definition ends_nonspace (rt : python_runtime) (s : text) : Prop :=
  match last s with
  | Some c => is_space rt c = false
  | None => False
  end.

(** The outbound calls of a trace: URL and body of each POST, in order. *)
Definition posts (tr : list event) : list (text * gmap string pyval) :=
  omap (λ e, match e with Post url _ json _ => Some (url, json) | _ => None end) tr.

(** The handler closed the socket. *)
Definition closed (tr : list event) : bool :=
  existsb (λ e, match e with Close => true | _ => false end) tr.

(** A call went out and the handler closed the socket after it. *)
Fixpoint closed_after_post (tr : list event) : bool :=
  match tr with
  | [] => false
  | Post _ _ _ _ :: tr' => closed tr'
  | _ :: tr' => closed_after_post tr'
  end.

(** The process was terminated. *)
Definition exited (tr : list event) : bool :=
  existsb (λ e, match e with OsExit _ => true | _ => false end) tr.

(** The failure of an outbound call: the hub answered with a status of 400
    or more, or the transport failed. *)
Definition failure_of (answer : post_result) : option exn :=
  match answer with
  | Response status_code body =>
      if (400 <=? status_code)%Z
      then Some (RuntimeError status_code (take 200 body)) else None
  | Failed k => Some (RequestException k)
  end.

(** Closing the socket raises nothing but subclasses of [Exception]. *)
Definition quiet_close (conn : connection) : Prop :=
  ∀ e, close_raises conn = Some e ∨ wait_closed_raises conn = Some e →
       is_Exception e = true.

(** The number of [.] in a string. *)
Definition count_dots (s : text) : nat := length (filter (λ c, c = 46%N) s).

(** The value of a hexadecimal digit in upper case. *)
Definition hex_value (c : N) : option N :=
  if ((48 <=? c) && (c <=? 57))%N then Some (c - 48)%N
  else if ((65 <=? c) && (c <=? 70))%N then Some (c - 55)%N
  else None.

(** Reading back a dump of bytes: pairs of hexadecimal digits with one
    space between two pairs. *)
Fixpoint parse_hex (s : text) : option (list byte) :=
  match s with
  | [] => Some []
  | h :: s1 =>
      match s1 with
      | [] => None
      | l :: s2 =>
          match hex_value h, hex_value l with
          | Some hv, Some lv =>
              match Byte.of_N (16 * hv + lv) with
              | Some b =>
                  match s2 with
                  | [] => Some [b]
                  | c :: s3 =>
                      if (c =? 32)%N
                      then match s3 with
                           | [] => None
                           | _ => cons b <$> parse_hex s3
                           end
                      else None
                  end
              | None => None
              end
          | _, _ => None
          end
      end
  end.

(** The value of a string of decimal digits, most significant first,
    after the digits that give [acc]. *)
Fixpoint decimal_value (acc : Z) (digits : text) : Z :=
  match digits with
  | [] => acc
  | c :: digits' => decimal_value (10 * acc + (Z.of_N c - 48))%Z digits'
  end.

(** An ASCII decimal digit. *)
Definition is_digit (c : N) : Prop := (48 ≤ c ≤ 57)%N.

(** A log record of the level occurs in the trace. *)
Definition logged (lvl : level) (tr : list event) : bool :=
  existsb (λ e, match e with
                | Log l _ => bool_decide (l = lvl)
                | _ => false
                end) tr.

(** A call the mapper can ask for: a POST to the [turn_on] or [turn_off]
    service of one of the three service domains, with an [entity_id] in the
    body. *)
Definition service_call_shape (cfg : config) (p : text * gmap string pyval) : Prop :=
  ∃ svc_domain service,
    p.1 = service_url cfg svc_domain service
    ∧ (svc_domain = txt "light" ∨ svc_domain = txt "switch"
       ∨ svc_domain = txt "homeassistant")
    ∧ (service = txt "turn_on" ∨ service = txt "turn_off")
    ∧ is_Some (p.2 !! "entity_id").

(** The connection of a peer that sent [raw] while the hub answers every
    call with [answer], and closing the socket raises nothing. *)
Definition connection_of (raw : list byte) (answer : post_result) : connection :=
  {| peername := txt "192.0.2.7";
     readline := Ok raw;
     hub := λ _ _, answer;
     close_raises := None;
     wait_closed_raises := None |}.

(** A frame as the controller sends it: four bytes of header, the command
    and a line feed. *)
Definition example_frame : list byte :=
  [x18; x27; x01; x03] ++ raw_of "light.bulb1 on 100%" ++ [x0a].

Definition example_config : config :=
  {| HA_URL := txt "http://hub:8123"; HA_TOKEN := txt "token" |}.

(** ** Properties of the text functions *)

Section TextFacts.
Context (rt : python_runtime).
Implicit Types (s cur : text) (c : N).

Lemma ends_nonspace_cons c s :
  ends_nonspace rt (c :: s) → s = [] ∨ ends_nonspace rt s.
Proof.
  destruct s as [|d s]; [by left|]. intros H. right.
  unfold ends_nonspace in *. by rewrite last_cons_cons in H.
Qed.

Lemma ends_nonspace_cons_space c s :
  is_space rt c = true → ends_nonspace rt (c :: s) → ends_nonspace rt s.
Proof.
  intros Hc H. destruct (ends_nonspace_cons _ _ H) as [->|]; [|done].
  unfold ends_nonspace in H. simpl in H. congruence.
Qed.

Lemma split_go_tokens_go s :
  (∀ cur, cur ≠ [] → s = [] ∨ ends_nonspace rt s →
          split_go rt cur false s = tokens_go rt cur s)
  ∧ (ends_nonspace rt s → split_go rt [] true s = tokens_go rt [] s).
Proof.
  induction s as [|c s [IH1 IH2]]; split.
  - intros [|d cur] Hcur _; [done|reflexivity].
  - intros [].
  - intros cur Hcur [|Hend]; [done|]. simpl.
    destruct (is_space rt c) eqn:Hc.
    + rewrite IH2 by eauto using ends_nonspace_cons_space.
      by destruct cur.
    + apply IH1; [done|]. eauto using ends_nonspace_cons.
  - intros Hend. simpl. destruct (is_space rt c) eqn:Hc.
    + apply IH2. eauto using ends_nonspace_cons_space.
    + apply IH1; [done|]. eauto using ends_nonspace_cons.
Qed.

Lemma rstrip_cons_nonspace c s :
  is_space rt c = false → rstrip rt (c :: s) = c :: rstrip rt s.
Proof. intros Hc. simpl. rewrite Hc. by destruct (rstrip rt s). Qed.

Lemma rstrip_cons_nonempty c s :
  rstrip rt s ≠ [] → rstrip rt (c :: s) = c :: rstrip rt s.
Proof. intros H. simpl. by destruct (rstrip rt s). Qed.

Lemma rstrip_ends_nonspace s :
  rstrip rt s ≠ [] → ends_nonspace rt (rstrip rt s).
Proof.
  induction s as [|c s IH]; [done|]. simpl.
  destruct (rstrip rt s) as [|d r] eqn:Hr.
  - destruct (is_space rt c) eqn:Hc; [done|]. intros _. by unfold ends_nonspace.
  - intros _. unfold ends_nonspace in *. rewrite last_cons_cons. by apply IH.
Qed.

Lemma lstrip_head s c s' : lstrip rt s = c :: s' → is_space rt c = false.
Proof.
  induction s as [|d s IH]; [done|]. simpl.
  destruct (is_space rt d) eqn:Hd; [done|]. congruence.
Qed.

Lemma strip_shape s :
  strip rt s = [] ∨
  ∃ c s', strip rt s = c :: s' ∧ is_space rt c = false ∧ ends_nonspace rt (strip rt s).
Proof.
  unfold strip. destruct (lstrip rt s) as [|c t] eqn:Hl; [by left|].
  right. pose proof (lstrip_head _ _ _ Hl) as Hc.
  rewrite rstrip_cons_nonspace by done.
  exists c, (rstrip rt t). split_and!; [done..|].
  rewrite <- rstrip_cons_nonspace by done. by apply rstrip_ends_nonspace;
    rewrite rstrip_cons_nonspace.
Qed.

Lemma tokens_go_cons cur c s :
  tokens_go rt cur (c :: s) =
  if is_space rt c
  then match cur with
       | [] => tokens_go rt [] s
       | _ => reverse cur :: tokens_go rt [] s
       end
  else tokens_go rt (c :: cur) s.
Proof. done. Qed.

Lemma tokens_go_rstrip s cur : tokens_go rt cur (rstrip rt s) = tokens_go rt cur s.
Proof.
  revert cur. induction s as [|c s IH]; intros cur; [done|].
  destruct (rstrip rt s) as [|d r] eqn:Hr.
  - simpl. rewrite Hr. destruct (is_space rt c) eqn:Hc.
    + rewrite <- IH. by destruct cur.
    + simpl. rewrite Hc. by rewrite <- IH.
  - rewrite rstrip_cons_nonempty by (by rewrite Hr). rewrite Hr.
    rewrite (tokens_go_cons cur c (d :: r)), (tokens_go_cons cur c s).
    by rewrite !IH.
Qed.

Lemma tokens_go_lstrip s : tokens_go rt [] (lstrip rt s) = tokens_go rt [] s.
Proof.
  induction s as [|c s IH]; [done|]. simpl.
  destruct (is_space rt c) eqn:Hc; [done|]. simpl. by rewrite Hc.
Qed.

Lemma tokens_strip s : tokens rt (strip rt s) = tokens rt s.
Proof. unfold tokens, strip. by rewrite tokens_go_rstrip, tokens_go_lstrip. Qed.

(** On a stripped line that is not empty, [re.split] yields the tokens. *)
Lemma re_split_ws_strip s :
  strip rt s ≠ [] → re_split_ws rt (strip rt s) = tokens rt s.
Proof.
  intros Hne. rewrite <- tokens_strip.
  destruct (strip_shape s) as [|(c & s' & Hs & Hc & Hend)]; [done|].
  rewrite Hs in *. unfold re_split_ws, tokens. simpl. rewrite Hc.
  apply (proj1 (split_go_tokens_go s')); [done|]. eauto using ends_nonspace_cons.
Qed.

Lemma re_split_ws_strip_empty s :
  strip rt s = [] → re_split_ws rt (strip rt s) = [[]] ∧ tokens rt s = [].
Proof. intros H. rewrite <- tokens_strip, H. done. Qed.

Lemma tokens_go_nospace s cur :
  Forall (λ c, is_space rt c = false) cur →
  Forall (λ t, t ≠ [] ∧ Forall (λ c, is_space rt c = false) t)
         (tokens_go rt cur s).
Proof.
  revert cur. induction s as [|c s IH]; intros cur Hcur; simpl.
  - destruct cur as [|d cur]; [done|]. constructor; [|done]. split.
    + intros Hrev%(f_equal length). rewrite length_reverse in Hrev. done.
    + by apply Forall_reverse.
  - destruct (is_space rt c) eqn:Hc; [|by apply IH; constructor].
    destruct cur as [|d cur]; [by apply IH|]. constructor; [|by apply IH].
    split.
    + intros Hrev%(f_equal length). rewrite length_reverse in Hrev. done.
    + by apply Forall_reverse.
Qed.

(** Every token is a non-empty string without white space. *)
Lemma tokens_nospace s :
  Forall (λ t, t ≠ [] ∧ Forall (λ c, is_space rt c = false) t) (tokens rt s).
Proof. by apply tokens_go_nospace. Qed.

Lemma rstrip_nospace s :
  Forall (λ c, is_space rt c = false) s → rstrip rt s = s.
Proof.
  induction 1 as [|c s Hc _ IH]; [done|].
  by rewrite rstrip_cons_nonspace, IH.
Qed.

(** [strip] leaves a string without white space as it is. *)
Lemma strip_nospace s :
  Forall (λ c, is_space rt c = false) s → strip rt s = s.
Proof.
  intros Hs. unfold strip.
  assert (lstrip rt s = s) as -> by (destruct Hs as [|c s Hc]; simpl; [done|by rewrite Hc]).
  by apply rstrip_nospace.
Qed.
End TextFacts.

(** ** Properties of the arithmetic *)

Lemma round_half_even_nearest (n d : Z) :
  (0 < d)%Z →
  (2 * Z.abs (d * round_half_even n d - n) ≤ d)%Z
  ∧ ((2 * Z.abs (d * round_half_even n d - n) = d)%Z →
     Z.even (round_half_even n d) = true).
Proof.
  intros Hd. unfold round_half_even.
  pose proof (Z.div_mod n d ltac:(lia)) as Hdm.
  pose proof (Z.mod_pos_bound n d Hd) as Hr.
  set (q := (n / d)%Z) in *. set (r := (n mod d)%Z) in *.
  destruct (Z.ltb_spec (2 * r) d); [split; lia|].
  destruct (Z.ltb_spec d (2 * r)); [split; lia|].
  destruct (Z.even q) eqn:Hq; (split; [lia|intros _]); [done|].
  rewrite Z.even_add, Hq. done.
Qed.

(** The check of one percentage: the [float] computation of the source
    yields the rounding of the exact quotient. *)
Definition scale_agrees (pct : Z) : bool :=
  match py_round (true_div (pct * 255) 100) with
  | Ok b => (b =? round_half_even (pct * 255) 100)%Z
  | Raised _ => false
  end.

Lemma scale_agrees_all :
  forallb (λ p, scale_agrees (Z.of_nat p)) (seq 0 101) = true.
Proof. vm_compute. reflexivity. Qed.

(** [round(pct * 255 / 100)] for a percentage from 0 to 100: the division
    of the two integers as doubles and the rounding of the double agree
    with the rounding of the rational [pct * 255 / 100]. *)
Lemma scale_exact (pct : Z) :
  (0 ≤ pct ≤ 100)%Z →
  py_round (true_div (pct * 255) 100) = Ok (round_half_even (pct * 255) 100).
Proof.
  intros Hp. pose proof scale_agrees_all as H.
  rewrite forallb_forall in H.
  specialize (H (Z.to_nat pct)). rewrite Z2Nat.id in H by lia.
  assert (Hin : In (Z.to_nat pct) (seq 0 101)) by (apply in_seq; lia).
  apply H in Hin. unfold scale_agrees in Hin.
  destruct (py_round _) as [b|]; [|done].
  apply Z.eqb_eq in Hin. by subst.
Qed.

Lemma scale_range (pct : Z) :
  (0 ≤ pct ≤ 100)%Z → (0 ≤ round_half_even (pct * 255) 100 ≤ 255)%Z.
Proof.
  intros Hp.
  destruct (round_half_even_nearest (pct * 255) 100 ltac:(lia)) as [Hn _].
  lia.
Qed.

(** ** Properties of [parse_command] *)

Section ParserFacts.
Context (rt : python_runtime).
Implicit Types (line : text) (more : list text).

Lemma parse_command_parts line p0 p1 more :
  tokens rt line = p0 :: p1 :: more →
  line ≠ [] ∧ re_split_ws rt (strip rt line) = p0 :: p1 :: more.
Proof.
  intros Ht. split; [by intros ->|].
  destruct (decide (strip rt line = [])) as [He|Hne].
  - apply re_split_ws_strip_empty in He as [_ He]. congruence.
  - by rewrite re_split_ws_strip.
Qed.

Lemma parse_command_few line :
  (length (tokens rt line) < 2)%nat →
  parse_command rt line = Raised (ValueError "Empty command")
  ∨ parse_command rt line
    = Raised (ValueError "Expected: <entity_id> <on|off> [brightness]").
Proof.
  intros Hlen. unfold parse_command. case_bool_decide; [by left|right].
  destruct (decide (strip rt line = [])) as [He|Hne].
  - by rewrite (proj1 (re_split_ws_strip_empty rt _ He)).
  - rewrite re_split_ws_strip by done.
    destruct (tokens rt line) as [|p0 [|p1 more]]; simpl in Hlen; [done..|lia].
Qed.

(** Every way [parse_command] can go, by the tokens of the line. *)
Lemma parse_command_cases line :
  ((length (tokens rt line) < 2)%nat
   ∧ ∃ msg, parse_command rt line = Raised (ValueError msg))
  ∨ ∃ p0 p1 more, tokens rt line = p0 :: p1 :: more ∧
      ((lower rt p1 ≠ txt "on" ∧ lower rt p1 ≠ txt "off"
        ∧ parse_command rt line = Raised (ValueError "Action must be ON or OFF"))
       ∨ (lower rt p1 = txt "off"
          ∧ parse_command rt line = Ok (lower rt p0, txt "off", None))
       ∨ (lower rt p1 = txt "on" ∧ more = []
          ∧ parse_command rt line = Ok (lower rt p0, txt "on", None))
       ∨ (lower rt p1 = txt "on" ∧ ∃ p2 more', more = p2 :: more' ∧
          let tok := lower rt (strip rt p2) in
          (endswith tok 37 = true ∧
           ((py_int rt (drop_last tok) = None
             ∧ parse_command rt line = Raised
                 (ValueError "Brightness percentage must be an integer 0..100%"))
            ∨ ∃ pct, py_int rt (drop_last tok) = Some pct ∧
                ((¬ (0 ≤ pct ≤ 100)%Z
                  ∧ parse_command rt line = Raised
                      (ValueError "Brightness percentage out of range 0..100%"))
                 ∨ ((0 ≤ pct ≤ 100)%Z
                    ∧ parse_command rt line
                      = Ok (lower rt p0, txt "on",
                            Some (round_half_even (pct * 255) 100))))))
          ∨ (endswith tok 37 = false ∧
             ((py_int rt tok = None
               ∧ parse_command rt line = Raised
                   (ValueError "Brightness must be an integer 0..255 or '0..100%'"))
              ∨ ∃ bri, py_int rt tok = Some bri ∧
                  ((¬ (0 ≤ bri ≤ 255)%Z
                    ∧ parse_command rt line = Raised
                        (ValueError "Brightness out of range 0..255"))
                   ∨ ((0 ≤ bri ≤ 255)%Z
                      ∧ parse_command rt line
                        = Ok (lower rt p0, txt "on", Some bri))))))).
Proof.
  destruct (tokens rt line) as [|p0 [|p1 more]] eqn:Ht.
  1,2: left; split; [simpl; lia|];
       destruct (parse_command_few line) as [->| ->];
       [rewrite Ht; simpl; lia|eauto..].
  right. exists p0, p1, more. split; [done|].
  destruct (parse_command_parts _ _ _ _ Ht) as [Hne Hsp].
  unfold parse_command. rewrite bool_decide_eq_false_2 by done. rewrite Hsp.
  destruct (decide (lower rt p1 = txt "on")) as [Hon|Hon].
  - rewrite Hon. right; right.
    rewrite (bool_decide_eq_true_2 (txt "on" = txt "on")) by done. cbn [orb negb].
    destruct more as [|p2 more']; [by left|]. right. split; [done|].
    exists p2, more'. split; [done|]. cbv zeta.
    set (tok := lower rt (strip rt p2)).
    destruct (endswith tok 37) eqn:Hend; [left|right]; (split; [done|]).
    + destruct (py_int rt (drop_last tok)) as [pct|]; [right|by left].
      exists pct. split; [done|].
      destruct (Z.leb_spec 0 pct), (Z.leb_spec pct 100); cbn [andb negb];
        try (left; split; [lia|done]).
      right. split; [lia|]. by rewrite scale_exact by lia.
    + destruct (py_int rt tok) as [bri|]; [right|by left].
      exists bri. split; [done|].
      destruct (Z.leb_spec 0 bri), (Z.leb_spec bri 255); cbn [andb negb];
        try (left; split; [lia|done]).
      right. split; [lia|done].
  - rewrite (bool_decide_eq_false_2 (lower rt p1 = txt "on")) by done.
    destruct (decide (lower rt p1 = txt "off")) as [Hoff|Hoff].
    + right; left. rewrite Hoff.
      rewrite (bool_decide_eq_true_2 (txt "off" = txt "off")) by done.
      cbn [orb negb]. by destruct more.
    + left. rewrite (bool_decide_eq_false_2 (lower rt p1 = txt "off")) by done.
      done.
Qed.

Lemma parse_command_few_nonempty line :
  line ≠ [] → (length (tokens rt line) < 2)%nat →
  parse_command rt line
  = Raised (ValueError "Expected: <entity_id> <on|off> [brightness]").
Proof.
  intros Hne Hlen. unfold parse_command. rewrite bool_decide_eq_false_2 by done.
  destruct (decide (strip rt line = [])) as [He|Hne'].
  - by rewrite (proj1 (re_split_ws_strip_empty rt _ He)).
  - rewrite re_split_ws_strip by done.
    destruct (tokens rt line) as [|p0 [|p1 more]]; simpl in Hlen; [done..|lia].
Qed.

(** The same, with the brightness token judged by [valid_brightness]. *)
Lemma parse_command_summary line :
  ((length (tokens rt line) < 2)%nat
   ∧ ∃ msg, parse_command rt line = Raised (ValueError msg))
  ∨ ∃ p0 p1 more, tokens rt line = p0 :: p1 :: more ∧
      ((lower rt p1 ≠ txt "on" ∧ lower rt p1 ≠ txt "off"
        ∧ ∃ msg, parse_command rt line = Raised (ValueError msg))
       ∨ (lower rt p1 = txt "off"
          ∧ parse_command rt line = Ok (lower rt p0, txt "off", None))
       ∨ (lower rt p1 = txt "on" ∧ more = []
          ∧ parse_command rt line = Ok (lower rt p0, txt "on", None))
       ∨ (lower rt p1 = txt "on" ∧ ∃ p2 more', more = p2 :: more' ∧
          ((valid_brightness rt (lower rt (strip rt p2)) = false
            ∧ ∃ msg, parse_command rt line = Raised (ValueError msg))
           ∨ (valid_brightness rt (lower rt (strip rt p2)) = true
              ∧ ∃ b, parse_command rt line
                     = Ok (lower rt p0, txt "on", Some b))))).
Proof.
  destruct (parse_command_cases line) as [?|(p0 & p1 & more & Ht & Hc)];
    [by left|].
  right. exists p0, p1, more. split; [done|].
  destruct Hc as [(?&?&?)|[?|[?|(Hon & p2 & more' & -> & Hb)]]];
    [left; eauto|right; by left|right; right; by left|].
  right; right; right. split; [done|]. exists p2, more'. split; [done|].
  cbv zeta in Hb. unfold valid_brightness.
  destruct Hb as [[-> Hb]|[-> Hb]].
  - destruct Hb as [[-> ?]|(pct & -> & [[Hr ?]|[Hr ?]])]; [left; eauto| |].
    + left. split; [|eauto]. apply andb_false_iff.
      rewrite Z.leb_gt, Z.leb_gt. lia.
    + right. split; [|eauto]. apply andb_true_iff.
      rewrite Z.leb_le, Z.leb_le. lia.
  - destruct Hb as [[-> ?]|(bri & -> & [[Hr ?]|[Hr ?]])]; [left; eauto| |].
    + left. split; [|eauto]. apply andb_false_iff.
      rewrite Z.leb_gt, Z.leb_gt. lia.
    + right. split; [|eauto]. apply andb_true_iff.
      rewrite Z.leb_le, Z.leb_le. lia.
Qed.

Lemma parse_command_error_kind line e :
  parse_command rt line = Raised e → is_ValueError e = true.
Proof.
  intros He.
  destruct (parse_command_summary line)
    as [[_ [msg Hm]]|(p0 & p1 & more & Ht & Hc)];
    [rewrite Hm in He; by simplify_eq|].
  destruct Hc as [(_&_&[msg Hm])|[[_ Hok]|[(_&_&Hok)|(_ & p2 & more' & _ & Hb)]]];
    [rewrite Hm in He; by simplify_eq|congruence..|].
  destruct Hb as [[_ [msg Hm]]|[_ [b Hok]]];
    [rewrite Hm in He; by simplify_eq|congruence].
Qed.
End ParserFacts.

(** C5. A brightness token that comes with action [on]. When it ends with
    [%], its prefix has to be an integer from 0 to 100, anything else is a
    [ValueError] (the parse error), and the brightness is
    [round(pct * 255 / 100)]: the integer nearest to [pct * 255 / 100], the
    even one at a tie, so 128 for 50 and 255 for 100. Otherwise the token has
    to be an integer from 0 to 255, anything else is a [ValueError], and it is
    the brightness as it stands. *)
Theorem brightness_token_on (rt : python_runtime) (line p0 p1 p2 : text)
    (more : list text) :
  tokens rt line = p0 :: p1 :: p2 :: more →
  lower rt p1 = txt "on" →
  let tok := lower rt (strip rt p2) in
  (endswith tok 37 = true →
   (∀ pct, py_int rt (drop_last tok) = Some pct → (0 ≤ pct ≤ 100)%Z →
      ∃ b, parse_command rt line = Ok (lower rt p0, txt "on", Some b)
           ∧ py_round (true_div (pct * 255) 100) = Ok b
           ∧ (Z.abs (100 * b - 255 * pct) ≤ 50)%Z
           ∧ ((Z.abs (100 * b - 255 * pct) = 50)%Z → Z.even b = true)
           ∧ (0 ≤ b ≤ 255)%Z
           ∧ (pct = 50%Z → b = 128%Z)
           ∧ (pct = 100%Z → b = 255%Z))
   ∧ (∀ pct, py_int rt (drop_last tok) = Some pct → ¬ (0 ≤ pct ≤ 100)%Z →
        ∃ msg, parse_command rt line = Raised (ValueError msg))
   ∧ (py_int rt (drop_last tok) = None →
        ∃ msg, parse_command rt line = Raised (ValueError msg)))
  ∧ (endswith tok 37 = false →
     (∀ bri, py_int rt tok = Some bri → (0 ≤ bri ≤ 255)%Z →
        parse_command rt line = Ok (lower rt p0, txt "on", Some bri))
     ∧ (∀ bri, py_int rt tok = Some bri → ¬ (0 ≤ bri ≤ 255)%Z →
          ∃ msg, parse_command rt line = Raised (ValueError msg))
     ∧ (py_int rt tok = None →
          ∃ msg, parse_command rt line = Raised (ValueError msg))).
Proof.
  intros Ht Hon tok.
  destruct (parse_command_cases rt line)
    as [[Hlen _]|(q0 & q1 & more0 & Ht' & Hcases)].
  { rewrite Ht in Hlen. simpl in Hlen. lia. }
  rewrite Ht in Ht'. simplify_eq.
  destruct Hcases as [(Hno & _)|[(Hoff & _)|[(_ & Hnil & _)|(_ & Hbri)]]];
    [congruence| rewrite Hon in Hoff; discriminate | discriminate |].
  destruct Hbri as (q2 & more' & Hmore & Hbri). simplify_eq. cbv zeta in Hbri.
  fold tok in Hbri.
  split; intros Hend; (destruct Hbri as [[Hend' Hb]|[Hend' Hb]]; [|congruence])
    || (destruct Hbri as [[Hend' Hb]|[Hend' Hb]]; [congruence|]).
  - split_and!.
    + intros pct Hint Hrange.
      destruct Hb as [[Hnone _]|(pct' & Hint' & Hb)]; [congruence|].
      assert (pct' = pct) as -> by congruence. destruct Hb as [[Hout _]|[_ Hok]]; [done|].
      exists (round_half_even (pct * 255) 100).
      destruct (round_half_even_nearest (pct * 255) 100 ltac:(lia)) as [Hn He].
      split; [done|]. split; [by apply scale_exact|]. split; [lia|].
      split; [intros Htie; apply He; lia|]. split; [by apply scale_range|].
      split; by intros ->.
    + intros pct Hint Hrange.
      destruct Hb as [[Hnone _]|(pct' & Hint' & Hb)]; [congruence|].
      assert (pct' = pct) as -> by congruence. destruct Hb as [[_ Herr]|[Hin _]]; [eauto|done].
    + intros Hint.
      destruct Hb as [[_ Herr]|(pct' & Hint' & _)]; [eauto|congruence].
  - split_and!.
    + intros bri Hint Hrange.
      destruct Hb as [[Hnone _]|(bri' & Hint' & Hb)]; [congruence|].
      assert (bri' = bri) as -> by congruence. by destruct Hb as [[Hout _]|[_ Hok]].
    + intros bri Hint Hrange.
      destruct Hb as [[Hnone _]|(bri' & Hint' & Hb)]; [congruence|].
      assert (bri' = bri) as -> by congruence. destruct Hb as [[_ Herr]|[Hin _]]; [eauto|done].
    + intros Hint.
      destruct Hb as [[_ Herr]|(bri' & Hint' & _)]; [eauto|congruence].
Qed.

Lemma brightness_token_on_witness :
  parse_command ascii_runtime (txt "light.bulb1 on 50%")
  = Ok (txt "light.bulb1", txt "on", Some 128%Z).
Proof.
  destruct (brightness_token_on ascii_runtime (txt "light.bulb1 on 50%")
              (txt "light.bulb1") (txt "on") (txt "50%") [] eq_refl eq_refl)
    as [Hpct _].
  destruct (Hpct eq_refl) as (Hok & _ & _).
  destruct (Hok 50%Z eq_refl ltac:(lia)) as (b & Hb & _ & _ & _ & _ & H50 & _).
  rewrite Hb, (H50 eq_refl). reflexivity.
Defined.

(** C6. [parse_command] fails, and then with a [ValueError] (the parse
    error), exactly when the line is empty, or has fewer than two
    whitespace-separated tokens, or its second token lower-cased is neither
    [on] nor [off], or a brightness token that comes with action [on] is not
    valid. When it succeeds, the entity reference is the first token
    lower-cased and the action the second token lower-cased, and the tokens
    after the third have no part in the result. *)
Theorem parse_command_fails_iff (rt : python_runtime) (line : text) :
  ((∃ e, parse_command rt line = Raised e) ↔
   line = []
   ∨ (length (tokens rt line) < 2)%nat
   ∨ (∃ p0 p1 more, tokens rt line = p0 :: p1 :: more
        ∧ lower rt p1 ≠ txt "on" ∧ lower rt p1 ≠ txt "off")
   ∨ (∃ p0 p1 p2 more, tokens rt line = p0 :: p1 :: p2 :: more
        ∧ lower rt p1 = txt "on"
        ∧ valid_brightness rt (lower rt (strip rt p2)) = false))
  ∧ (∀ e, parse_command rt line = Raised e → ∃ msg, e = ValueError msg)
  ∧ (∀ entity_id action brightness,
       parse_command rt line = Ok (entity_id, action, brightness) →
       ∃ p0 p1 more, tokens rt line = p0 :: p1 :: more
         ∧ entity_id = lower rt p0 ∧ action = lower rt p1
         ∧ (action = txt "on" ∨ action = txt "off"))
  ∧ (∀ line', line ≠ [] → line' ≠ [] →
       take 3 (tokens rt line') = take 3 (tokens rt line) →
       parse_command rt line' = parse_command rt line).
Proof.
  split_and!.
  - split.
    + intros [e He].
      destruct (parse_command_summary rt line)
        as [[Hlen _]|(p0 & p1 & more & Ht & Hc)]; [by right; left|].
      destruct Hc as [(?&?&_)|[[_ Hok]|[(_&_&Hok)|(Hon & p2 & more' & -> & Hb)]]];
        [right; right; left; by exists p0, p1, more|congruence..|].
      destruct Hb as [[Hv _]|[_ [b Hok]]]; [|congruence].
      right; right; right. by exists p0, p1, p2, more'.
    + intros [->|[Hlen|[(p0 & p1 & more & Ht & Hon & Hoff)
                       |(p0 & p1 & p2 & more & Ht & Hon & Hv)]]].
      * by eexists.
      * destruct (parse_command_few rt line Hlen) as [->| ->]; by eexists.
      * destruct (parse_command_summary rt line)
          as [[_ [msg ->]]|(q0 & q1 & more0 & Ht' & Hc)]; [by eexists|].
        rewrite Ht in Ht'. simplify_eq.
        destruct Hc as [(_&_&[msg ->])|[[? _]|[(?&_)|(?&_)]]];
          [by eexists|done..].
      * destruct (parse_command_summary rt line)
          as [[_ [msg ->]]|(q0 & q1 & more0 & Ht' & Hc)]; [by eexists|].
        rewrite Ht in Ht'. simplify_eq.
        destruct Hc as [(?&_)|[[Hoff _]|[(_&?&_)|(_ & q2 & more' & ? & Hb)]]];
          [done|rewrite Hon in Hoff; discriminate|done|].
        simplify_eq.
        destruct Hb as [[_ [msg ->]]|[Hv' _]]; [by eexists|congruence].
  - intros e He.
    destruct (parse_command_summary rt line)
      as [[_ [msg Hm]]|(p0 & p1 & more & Ht & Hc)];
      [exists msg; congruence|].
    destruct Hc as [(_&_&[msg Hm])|[[_ Hok]|[(_&_&Hok)|(_ & p2 & more' & _ & Hb)]]];
      [exists msg; congruence|congruence..|].
    destruct Hb as [[_ [msg Hm]]|[_ [b Hok]]]; [exists msg; congruence|congruence].
  - intros entity_id action brightness Hok.
    destruct (parse_command_summary rt line)
      as [[_ [msg Hm]]|(p0 & p1 & more & Ht & Hc)]; [congruence|].
    exists p0, p1, more. split; [done|].
    destruct Hc as [(_&_&[msg Hm])|[[Hoff Hr]|[(Hon&_&Hr)|(Hon & p2 & more' & _ & Hb)]]];
      [congruence| | |].
    + rewrite Hr in Hok. simplify_eq. rewrite Hoff. auto.
    + rewrite Hr in Hok. simplify_eq. rewrite Hon. auto.
    + destruct Hb as [[_ [msg Hm]]|[_ [b Hr]]]; [congruence|].
      rewrite Hr in Hok. simplify_eq. rewrite Hon. auto.
  - intros line' Hne Hne' Htake.
    destruct (tokens rt line) as [|p0 [|p1 more]] eqn:Ht;
      destruct (tokens rt line') as [|q0 [|q1 more0]] eqn:Ht';
      try discriminate Htake.
    1,2: rewrite !parse_command_few_nonempty; rewrite ?Ht, ?Ht'; simpl; (done || lia).
    destruct (parse_command_parts rt _ _ _ _ Ht) as [_ Hsp].
    destruct (parse_command_parts rt _ _ _ _ Ht') as [_ Hsp'].
    unfold parse_command. rewrite !bool_decide_eq_false_2 by done.
    rewrite Hsp, Hsp'.
    destruct more as [|p2 more], more0 as [|q2 more0]; by simplify_eq/=.
Qed.

Lemma parse_command_fails_iff_witness :
  ∃ e, parse_command ascii_runtime (txt "light.x maybe") = Raised e.
Proof.
  apply (proj1 (parse_command_fails_iff ascii_runtime (txt "light.x maybe"))).
  right; right; left. exists (txt "light.x"), (txt "maybe"), [].
  split; [reflexivity|]. split; discriminate.
Defined.

(** C7. A command with action [off] has no brightness: whatever the line
    carries after [off], valid as a brightness or not, is left aside and
    raises nothing. *)
Theorem off_has_no_brightness (rt : python_runtime) (line : text) :
  (∀ entity_id action brightness,
     parse_command rt line = Ok (entity_id, action, brightness) →
     action = txt "off" → brightness = None)
  ∧ (∀ p0 p1 more,
       tokens rt line = p0 :: p1 :: more → lower rt p1 = txt "off" →
       parse_command rt line = Ok (lower rt p0, txt "off", None)).
Proof.
  split.
  - intros entity_id action brightness Hok ->.
    destruct (parse_command_summary rt line)
      as [[_ [msg Hm]]|(p0 & p1 & more & Ht & Hc)]; [congruence|].
    destruct Hc as [(_&_&[msg Hm])|[[Hoff Hr]|[(Hon&_&Hr)|(Hon & p2 & more' & _ & Hb)]]];
      [congruence| | |].
    + rewrite Hr in Hok. by simplify_eq.
    + rewrite Hr in Hok. by simplify_eq.
    + destruct Hb as [[_ [msg Hm]]|[_ [b Hr]]]; [congruence|].
      rewrite Hr in Hok. by simplify_eq.
  - intros p0 p1 more Ht Hoff.
    destruct (parse_command_summary rt line)
      as [[Hlen _]|(q0 & q1 & more0 & Ht' & Hc)].
    { rewrite Ht in Hlen. simpl in Hlen. lia. }
    rewrite Ht in Ht'. simplify_eq.
    destruct Hc as [(_&?&_)|[[_ Hr]|[(Hon&_)|(Hon&_)]]];
      [done|done|rewrite Hoff in Hon; discriminate..].
Qed.

Lemma off_has_no_brightness_witness :
  parse_command ascii_runtime (txt "switch.fan1 off 2000%")
  = Ok (txt "switch.fan1", txt "off", None).
Proof.
  apply (proj2 (off_has_no_brightness ascii_runtime (txt "switch.fan1 off 2000%"))
           (txt "switch.fan1") (txt "off") [txt "2000%"]); reflexivity.
Defined.

(** ** Laws of the monad *)

Section MonadLaws.
Context {A B : Type}.
Implicit Types (f : A → M B).

Lemma bind_ret_l (a : A) f : bind (ret a) f = f a.
Proof. unfold bind, ret. by destruct (f a). Qed.

Lemma bind_lift_ok (a : A) f : bind (lift (Ok a)) f = f a.
Proof. apply bind_ret_l. Qed.

Lemma bind_lift_raised (e : exn) f : bind (lift (Raised e)) f = raise e.
Proof. done. Qed.

Lemma bind_raise (e : exn) f : bind (raise e) f = raise e.
Proof. done. Qed.

Lemma bind_emit (ev : event) (k : unit → M B) :
  bind (emit ev) k = (ev :: (k tt).1, (k tt).2).
Proof. unfold bind, emit. by destruct (k tt). Qed.

Lemma bind_log (lvl : level) (r : log_record) (k : unit → M B) :
  bind (log lvl r) k = (Log lvl r :: (k tt).1, (k tt).2).
Proof. apply bind_emit. Qed.
End MonadLaws.

(** ** Properties of [domain_from_entity] and [build_service_call] *)

Lemma before_first_dot_split (s : text) :
  46%N ∈ s →
  ∃ name, s = before_first_dot s ++ 46%N :: name ∧ (46%N ∉ before_first_dot s).
Proof.
  induction s as [|c s IH]; [by intros ?%elem_of_nil|].
  intros Hin. simpl. destruct (N.eqb_spec c 46) as [->|Hc].
  - exists s. split; [done|]. apply not_elem_of_nil.
  - apply elem_of_cons in Hin as [?|Hin]; [done|].
    destruct (IH Hin) as (name & Hs & Hno). exists name. split.
    + simpl. by rewrite <- Hs.
    + intros [?|?]%elem_of_cons; [by apply Hc|done].
Qed.

Lemma count_dots_zero (s : text) : 46%N ∉ s → count_dots s = 0%nat.
Proof.
  unfold count_dots. induction s as [|c s IH]; [done|].
  intros Hno. apply not_elem_of_cons in Hno as [Hc Hs].
  rewrite filter_cons_False by (by intros ->). by apply IH.
Qed.

Lemma count_dots_pos (s : text) : (0 < count_dots s)%nat → 46%N ∈ s.
Proof.
  intros Hpos. destruct (decide (46%N ∈ s)) as [|Hno]; [done|].
  rewrite count_dots_zero in Hpos by done. lia.
Qed.

Lemma count_dots_split (prefix name : text) :
  count_dots (prefix ++ 46%N :: name) = (count_dots prefix + S (count_dots name))%nat.
Proof.
  unfold count_dots. rewrite filter_app, length_app, filter_cons_True by done.
  done.
Qed.

Lemma domain_from_entity_ok (entity_id : text) :
  46%N ∈ entity_id →
  domain_from_entity entity_id = Ok (before_first_dot entity_id).
Proof.
  intros Hin. unfold domain_from_entity. by rewrite bool_decide_eq_false_2 by auto.
Qed.

Lemma domain_from_entity_raises (entity_id : text) :
  46%N ∉ entity_id →
  domain_from_entity entity_id
  = Raised (ValueError "entity_id must include domain, e.g. 'light.shelly_bulb_1'").
Proof.
  intros Hno. unfold domain_from_entity. by rewrite bool_decide_eq_true_2.
Qed.

Lemma build_service_call_raises (entity_id action : text) (brightness : option Z) :
  46%N ∉ entity_id →
  build_service_call entity_id action brightness
  = ([], Raise (ValueError "entity_id must include domain, e.g. 'light.shelly_bulb_1'")).
Proof.
  intros Hno. unfold build_service_call.
  by rewrite domain_from_entity_raises, bind_lift_raised.
Qed.

(** What [build_service_call] returns for an entity reference with a [.]:
    one log record and the triple. *)
Lemma build_service_call_ok (entity_id action : text) (brightness : option Z) :
  46%N ∈ entity_id →
  ∃ svc_domain service data,
    build_service_call entity_id action brightness
    = ([Log INFO (LogJson svc_domain service data)], Val (svc_domain, service, data))
    ∧ svc_domain
      = (if bool_decide (before_first_dot entity_id = txt "light") then txt "light"
         else if bool_decide (before_first_dot entity_id = txt "switch")
              then txt "switch" else txt "homeassistant")
    ∧ service
      = (if bool_decide (action = txt "on") then txt "turn_on" else txt "turn_off")
    ∧ data !! "entity_id" = Some (PyStr entity_id)
    ∧ (∀ v, data !! "brightness" = Some v ↔
            before_first_dot entity_id = txt "light" ∧ action = txt "on"
            ∧ ∃ b, brightness = Some b ∧ v = PyInt b)
    ∧ (∀ k, is_Some (data !! k) → k = "entity_id" ∨ k = "brightness").
Proof.
  intros Hin. unfold build_service_call.
  rewrite domain_from_entity_ok, bind_lift_ok by done.
  set (prefix := before_first_dot entity_id).
  assert (Hkeys : ∀ (d : gmap string pyval) k,
            d = {[ "entity_id" := PyStr entity_id ]} →
            is_Some (d !! k) → k = "entity_id" ∨ k = "brightness").
  { intros d k -> [v Hv]. apply lookup_singleton_Some in Hv as [<- _]. by left. }
  destruct (decide (prefix = txt "light")) as [Hl|Hl].
  - rewrite (bool_decide_eq_true_2 _ Hl).
    destruct (decide (action = txt "on")) as [Ha|Ha].
    + rewrite !(bool_decide_eq_true_2 _ Ha).
      destruct brightness as [b|]; do 3 eexists; (split; [reflexivity|]);
        (split_and!; [done|done| | |]).
      * by rewrite lookup_insert_ne, lookup_singleton_eq.
      * intros v. rewrite lookup_insert_eq. split.
        -- intros [= <-]. eauto.
        -- intros (_ & _ & b' & [= <-] & ->). done.
      * intros k [v Hv]. destruct (decide (k = "brightness")); [by right|].
        rewrite lookup_insert_ne in Hv by done. eauto.
      * by rewrite lookup_singleton_eq.
      * intros v. rewrite lookup_singleton_ne by done. split; [done|].
        by intros (_ & _ & b' & ? & _).
      * eauto.
    + rewrite !(bool_decide_eq_false_2 _ Ha).
      assert (data_same :
        match brightness with Some _ => _ | None => _ end
        = ({[ "entity_id" := PyStr entity_id ]} : gmap string pyval))
        by (destruct brightness; reflexivity).
      do 3 eexists. split; [reflexivity|]. rewrite data_same.
      split_and!; [done|done|by rewrite lookup_singleton_eq| |eauto].
      intros v. rewrite lookup_singleton_ne by done. split; [done|].
      by intros (_ & ? & _).
  - rewrite (bool_decide_eq_false_2 _ Hl).
    destruct (bool_decide (prefix = txt "switch")); do 3 eexists;
      (split; [reflexivity|]);
      (split_and!; [done|done|by rewrite lookup_singleton_eq| |eauto]);
      intros v; rewrite lookup_singleton_ne by done; (split; [done|]);
      by intros (? & _).
Qed.

(** C3, as the code has it. [build_service_call] fails, and then with the
    [ValueError] of [domain_from_entity] (the domain error), exactly when the
    entity reference has no [.] in it. An entity reference that begins with
    [.] is not refused: its domain is empty and the call goes to
    [homeassistant]. *)
Theorem build_service_call_fails_iff (entity_id action : text)
    (brightness : option Z) :
  ((∃ e, (build_service_call entity_id action brightness).2 = Raise e)
   ↔ 46%N ∉ entity_id)
  ∧ (∀ e, (build_service_call entity_id action brightness).2 = Raise e →
          ∃ msg, e = ValueError msg)
  ∧ (∀ name, entity_id = 46%N :: name →
       domain_from_entity entity_id = Ok []
       ∧ ∃ service data,
           (build_service_call entity_id action brightness).2
           = Val (txt "homeassistant", service, data)).
Proof.
  destruct (decide (46%N ∈ entity_id)) as [Hin|Hno].
  - destruct (build_service_call_ok entity_id action brightness Hin)
      as (sd & sv & data & Hb & Hsd & _).
    rewrite Hb. split_and!.
    + split; [by intros [e ?]|done].
    + by intros e ?.
    + intros name ->. split; [by rewrite domain_from_entity_ok|].
      exists sv, data. simpl. by rewrite Hsd.
  - rewrite build_service_call_raises by done. split_and!.
    + split; [done|eauto].
    + intros e [= <-]. eauto.
    + intros name ->. destruct Hno. by left.
Qed.

Lemma build_service_call_fails_iff_witness :
  domain_from_entity (txt ".foo") = Ok []
  ∧ ∃ service data,
      (build_service_call (txt ".foo") (txt "on") None).2
      = Val (txt "homeassistant", service, data).
Proof.
  apply (proj2 (proj2 (build_service_call_fails_iff (txt ".foo") (txt "on") None))
           (txt "foo")).
  reflexivity.
Defined.

(** C3, as the specification has it, fails: [.foo] has no [.] with a
    non-empty prefix before it, and the mapper accepts it. *)
Lemma leading_dot_is_accepted :
  (¬ ∃ prefix name, txt ".foo" = prefix ++ 46%N :: name ∧ prefix ≠ [])
  ∧ domain_from_entity (txt ".foo") = Ok []
  ∧ (build_service_call (txt ".foo") (txt "on") None).2
    = Val (txt "homeassistant", txt "turn_on",
           {[ "entity_id" := PyStr (txt ".foo") ]}).
Proof.
  split; [|split; reflexivity].
  intros (prefix & name & Heq & Hne).
  destruct prefix as [|c prefix]; [done|].
  injection Heq as _ Heq.
  assert (Hin : 46%N ∈ prefix ++ 46%N :: name) by set_solver.
  rewrite <- Heq in Hin. vm_compute in Hin.
  repeat (apply elem_of_cons in Hin as [Hin|Hin]; [discriminate|]).
  by apply elem_of_nil in Hin.
Qed.

(** C8. For an entity reference with a domain prefix, [build_service_call]
    returns service domain [light] for prefix [light], [switch] for prefix
    [switch] and [homeassistant] for every other prefix; service [turn_on]
    for action [on] and [turn_off] for action [off], whatever the domain; and
    a payload that holds the whole entity reference under [entity_id] and
    holds [brightness] only when the domain is [light], the action is [on]
    and a brightness is given, and no other key. *)
Theorem build_service_call_mapping (entity_id action : text)
    (brightness : option Z) :
  46%N ∈ entity_id →
  ∃ prefix name svc_domain service data tr,
    entity_id = prefix ++ 46%N :: name ∧ (46%N ∉ prefix)
    ∧ build_service_call entity_id action brightness
      = (tr, Val (svc_domain, service, data))
    ∧ (prefix = txt "light" → svc_domain = txt "light")
    ∧ (prefix = txt "switch" → svc_domain = txt "switch")
    ∧ (prefix ≠ txt "light" → prefix ≠ txt "switch" →
       svc_domain = txt "homeassistant")
    ∧ (action = txt "on" → service = txt "turn_on")
    ∧ (action = txt "off" → service = txt "turn_off")
    ∧ data !! "entity_id" = Some (PyStr entity_id)
    ∧ (∀ v, data !! "brightness" = Some v ↔
            prefix = txt "light" ∧ action = txt "on"
            ∧ ∃ b, brightness = Some b ∧ v = PyInt b)
    ∧ (∀ k, is_Some (data !! k) → k = "entity_id" ∨ k = "brightness").
Proof.
  intros Hin.
  destruct (before_first_dot_split entity_id Hin) as (name & Hsplit & Hno).
  destruct (build_service_call_ok entity_id action brightness Hin)
    as (sd & sv & data & Hb & Hsd & Hsv & Hid & Hbri & Hkeys).
  exists (before_first_dot entity_id), name, sd, sv, data.
  eexists. split; [done|]. split; [done|]. split; [exact Hb|].
  split_and!; [..|done|done|done].
  - intros Hl. by rewrite Hsd, bool_decide_eq_true_2.
  - intros Hs. rewrite Hsd, Hs. reflexivity.
  - intros Hl Hs. by rewrite Hsd, !bool_decide_eq_false_2.
  - intros Ha. by rewrite Hsv, bool_decide_eq_true_2.
  - intros Ha. rewrite Hsv, Ha. reflexivity.
Qed.

Lemma build_service_call_mapping_witness :
  ∃ prefix name svc_domain service data tr,
    txt "switch.fan1" = prefix ++ 46%N :: name ∧ (46%N ∉ prefix)
    ∧ build_service_call (txt "switch.fan1") (txt "off") (Some 200%Z)
      = (tr, Val (svc_domain, service, data))
    ∧ (prefix = txt "light" → svc_domain = txt "light")
    ∧ (prefix = txt "switch" → svc_domain = txt "switch")
    ∧ (prefix ≠ txt "light" → prefix ≠ txt "switch" →
       svc_domain = txt "homeassistant")
    ∧ (txt "off" = txt "on" → service = txt "turn_on")
    ∧ (txt "off" = txt "off" → service = txt "turn_off")
    ∧ data !! "entity_id" = Some (PyStr (txt "switch.fan1"))
    ∧ (∀ v, data !! "brightness" = Some v ↔
            prefix = txt "light" ∧ txt "off" = txt "on"
            ∧ ∃ b, Some 200%Z = Some b ∧ v = PyInt b)
    ∧ (∀ k, is_Some (data !! k) → k = "entity_id" ∨ k = "brightness").
Proof.
  apply (build_service_call_mapping (txt "switch.fan1") (txt "off") (Some 200%Z)).
  apply (bool_decide_unpack _). vm_compute. exact I.
Defined.

(** C10. An entity reference with more than one [.] is not refused: the
    domain is what stands before the first [.], the other dots stay in the
    name, and the whole reference is the [entity_id] of the payload. *)
Theorem multi_dot_entity (entity_id action : text) (brightness : option Z) :
  (1 < count_dots entity_id)%nat →
  ∃ prefix name svc_domain service data tr,
    entity_id = prefix ++ 46%N :: name ∧ (46%N ∉ prefix) ∧ 46%N ∈ name
    ∧ domain_from_entity entity_id = Ok prefix
    ∧ build_service_call entity_id action brightness
      = (tr, Val (svc_domain, service, data))
    ∧ data !! "entity_id" = Some (PyStr entity_id).
Proof.
  intros Hdots.
  assert (Hin : 46%N ∈ entity_id) by (apply count_dots_pos; lia).
  destruct (before_first_dot_split entity_id Hin) as (name & Hsplit & Hno).
  destruct (build_service_call_ok entity_id action brightness Hin)
    as (sd & sv & data & Hb & _ & _ & Hid & _).
  exists (before_first_dot entity_id), name, sd, sv, data. eexists.
  split_and!; [done|done| |by apply domain_from_entity_ok|exact Hb|done].
  apply count_dots_pos. rewrite Hsplit, count_dots_split in Hdots.
  rewrite (count_dots_zero _ Hno) in Hdots. lia.
Qed.

Lemma multi_dot_entity_witness :
  ∃ prefix name svc_domain service data tr,
    txt "light.a.b" = prefix ++ 46%N :: name ∧ (46%N ∉ prefix) ∧ 46%N ∈ name
    ∧ domain_from_entity (txt "light.a.b") = Ok prefix
    ∧ build_service_call (txt "light.a.b") (txt "on") None
      = (tr, Val (svc_domain, service, data))
    ∧ data !! "entity_id" = Some (PyStr (txt "light.a.b")).
Proof.
  apply (multi_dot_entity (txt "light.a.b") (txt "on") None).
  vm_compute. lia.
Defined.

(** ** Properties of [clean_command] *)

Lemma find_start_none (raw : list byte) (i : nat) :
  Forall (λ b, is_ascii_letter b = false) raw → find_start i raw = None.
Proof.
  intros H. revert i. induction H as [|b raw Hb _ IH]; intros i; [done|].
  simpl. by rewrite Hb.
Qed.

Lemma find_start_header (header : list byte) (b : byte) (rest : list byte) (i : nat) :
  Forall (λ b, is_ascii_letter b = false) header →
  is_ascii_letter b = true →
  find_start i (header ++ b :: rest) = Some (i + length header)%nat.
Proof.
  intros H Hb. revert i. induction H as [|x header Hx _ IH]; intros i; simpl.
  - rewrite Hb. f_equal. lia.
  - rewrite Hx, IH. f_equal. lia.
Qed.

Lemma clean_command_header (rt : python_runtime) (header : list byte) (b : byte)
    (rest : list byte) :
  Forall (λ b, is_ascii_letter b = false) header →
  is_ascii_letter b = true →
  clean_command rt (header ++ b :: rest)
  = strip rt (decode_utf8_ignore (Byte.to_N <$> b :: rest)).
Proof.
  intros H Hb. unfold clean_command.
  rewrite (find_start_header _ _ _ _ H Hb). simpl.
  by rewrite drop_app_length.
Qed.

Lemma decode_utf8_ignore_ascii (bs : list N) :
  Forall (λ n, (n < 128)%N) bs → decode_utf8_ignore bs = bs.
Proof.
  induction 1 as [|b bs Hb _ IH]; [done|]. simpl.
  destruct (N.ltb_spec b 128); [|lia]. by rewrite IH.
Qed.

Ltac decide_comparisons :=
  repeat match goal with
         | |- context [(?a <? ?b)%N] => destruct (N.ltb_spec a b); try lia
         | |- context [(?a <=? ?b)%N] => destruct (N.leb_spec a b); try lia
         | |- context [(?a =? ?b)%N] => destruct (N.eqb_spec a b); try lia
         end.

(** The decoder reads the encoding of a scalar value back as that value. *)
Lemma decode_utf8_ignore_encode (c : N) (rest : list N) :
  is_scalar c →
  decode_utf8_ignore (utf8_encode c ++ rest) = c :: decode_utf8_ignore rest.
Proof.
  intros [Hmax Hsur]. unfold utf8_encode.
  pose proof (N.Div0.div_mod c 64) as E1.
  pose proof (N.mod_lt c 64 ltac:(lia)) as B1.
  pose proof (N.Div0.div_mod (c / 64) 64) as E2.
  pose proof (N.mod_lt (c / 64) 64 ltac:(lia)) as B2.
  pose proof (N.Div0.div_mod (c / 4096) 64) as E3.
  pose proof (N.mod_lt (c / 4096) 64 ltac:(lia)) as B3.
  assert (D2 : (c / 64 / 64 = c / 4096)%N) by (rewrite N.Div0.div_div; done).
  assert (D3 : (c / 4096 / 64 = c / 262144)%N) by (rewrite N.Div0.div_div; done).
  rewrite D2 in E2. rewrite D3 in E3. clear D2 D3.
  set (r1 := (c mod 64)%N) in *. set (r2 := ((c / 64) mod 64)%N) in *.
  set (r3 := ((c / 4096) mod 64)%N) in *. set (q1 := (c / 64)%N) in *.
  set (q2 := (c / 4096)%N) in *. set (q3 := (c / 262144)%N) in *.
  clearbody r1 r2 r3 q1 q2 q3.
  destruct (N.ltb_spec c 128).
  { simpl. destruct (N.ltb_spec c 128); [done|lia]. }
  destruct (N.ltb_spec c 2048).
  { cbn [app decode_utf8_ignore]. unfold is_continuation. decide_comparisons.
    cbn [andb]. f_equal. lia. }
  destruct (N.ltb_spec c 65536).
  { cbn [app decode_utf8_ignore]. unfold is_continuation. decide_comparisons;
      cbn [andb orb negb]; try (f_equal; lia). }
  cbn [app decode_utf8_ignore]. unfold is_continuation. decide_comparisons;
    cbn [andb orb negb]; try (f_equal; lia).
Qed.

Lemma decode_utf8_ignore_encode_text (t : text) :
  Forall is_scalar t → decode_utf8_ignore (t ≫= utf8_encode) = t.
Proof.
  induction 1 as [|c t Hc _ IH]; [done|].
  rewrite bind_cons, decode_utf8_ignore_encode by done. by rewrite IH.
Qed.

(** A byte that cannot start a sequence is dropped. *)
Lemma decode_utf8_ignore_invalid_start (b : N) (bs : list N) :
  (128 ≤ b < 194 ∨ 245 ≤ b)%N →
  decode_utf8_ignore (b :: bs) = decode_utf8_ignore bs.
Proof.
  intros Hb. simpl.
  destruct (N.ltb_spec b 128); [lia|].
  destruct (N.ltb_spec b 194); [done|].
  destruct (N.ltb_spec b 224); [lia|].
  destruct (N.ltb_spec b 240); [lia|].
  destruct (N.ltb_spec b 245); [lia|done].
Qed.

Section StripFacts.
Context (rt : python_runtime).

Lemma lstrip_decompose (s : text) :
  ∃ l, s = l ++ lstrip rt s ∧ Forall (λ c, is_space rt c = true) l.
Proof.
  induction s as [|c s (l & Hs & Hl)]; [by exists []|]. simpl.
  destruct (is_space rt c) eqn:Hc; [|by exists []].
  exists (c :: l). split; [by rewrite Hs at 1|by constructor].
Qed.

Lemma rstrip_decompose (s : text) :
  ∃ r, s = rstrip rt s ++ r ∧ Forall (λ c, is_space rt c = true) r.
Proof.
  induction s as [|c s (r & Hs & Hr)]; [by exists []|].
  destruct (rstrip rt s) as [|d t] eqn:Ht.
  - simpl. rewrite Ht. simpl in Hs. subst r.
    destruct (is_space rt c) eqn:Hc; [|by exists s].
    exists (c :: s). split; [done|by constructor].
  - rewrite rstrip_cons_nonempty by (by rewrite Ht). rewrite Ht.
    exists r. split; [by rewrite Hs at 1|done].
Qed.

(** [strip] takes white space off both ends and nothing else, and what it
    leaves neither begins nor ends with white space. *)
Lemma strip_decompose (s : text) :
  ∃ l r, s = l ++ strip rt s ++ r
    ∧ Forall (λ c, is_space rt c = true) l
    ∧ Forall (λ c, is_space rt c = true) r.
Proof.
  destruct (lstrip_decompose s) as (l & Hs & Hl).
  destruct (rstrip_decompose (lstrip rt s)) as (r & Hs' & Hr).
  exists l, r. unfold strip. by rewrite <- Hs'.
Qed.

Lemma strip_head (s : text) (c : N) :
  head (strip rt s) = Some c → is_space rt c = false.
Proof.
  destruct (strip_shape rt s) as [->|(d & s' & -> & Hd & _)]; [done|].
  by intros [= <-].
Qed.

Lemma strip_last (s : text) (c : N) :
  last (strip rt s) = Some c → is_space rt c = false.
Proof.
  destruct (strip_shape rt s) as [->|(d & s' & _ & _ & Hend)]; [done|].
  intros Hl. unfold ends_nonspace in Hend. by rewrite Hl in Hend.
Qed.
End StripFacts.

Lemma clean_command_bulb_frame (rt : python_runtime) (header : list byte) :
  Forall (λ b, is_ascii_letter b = false) header →
  clean_command rt (header ++ raw_of "light.bulb1 on 100%" ++ [x0a])
  = txt "light.bulb1 on 100%".
Proof.
  intros H.
  change (raw_of "light.bulb1 on 100%" ++ [x0a])
    with ("l"%byte :: raw_of "ight.bulb1 on 100%" ++ [x0a]).
  rewrite clean_command_header by done. vm_compute. reflexivity.
Qed.

(** C9. On bytes without an ASCII letter [clean_command] returns the empty
    string. Otherwise it returns what stands from the first ASCII letter to
    the end, decoded as UTF-8 with the [ignore] handler and stripped: the
    result differs from the decoded text by white space at the two ends only,
    and neither begins nor ends with white space. So a payload of ASCII bytes
    that begins with a letter comes back as it is, stripped. *)
Theorem clean_command_spec (rt : python_runtime) (raw : list byte) :
  (Forall (λ b, is_ascii_letter b = false) raw → clean_command rt raw = [])
  ∧ (∀ header b rest,
       raw = header ++ b :: rest →
       Forall (λ b, is_ascii_letter b = false) header →
       is_ascii_letter b = true →
       let decoded := decode_utf8_ignore (Byte.to_N <$> b :: rest) in
       clean_command rt raw = strip rt decoded
       ∧ ∃ l r, decoded = l ++ clean_command rt raw ++ r
           ∧ Forall (λ c, is_space rt c = true) l
           ∧ Forall (λ c, is_space rt c = true) r)
  ∧ (∀ c, head (clean_command rt raw) = Some c → is_space rt c = false)
  ∧ (∀ c, last (clean_command rt raw) = Some c → is_space rt c = false)
  ∧ (∀ b rest,
       raw = b :: rest → is_ascii_letter b = true →
       Forall (λ x, (Byte.to_N x < 128)%N) raw →
       clean_command rt raw = strip rt (Byte.to_N <$> raw))
  ∧ (∀ b rest payload,
       raw = b :: rest → is_ascii_letter b = true →
       Forall is_scalar payload →
       Byte.to_N <$> raw = payload ≫= utf8_encode →
       clean_command rt raw = strip rt payload).
Proof.
  split_and!.
  - intros H. unfold clean_command. by rewrite find_start_none.
  - intros header b rest -> Hheader Hb decoded.
    rewrite clean_command_header by done. fold decoded.
    split; [done|]. apply strip_decompose.
  - intros c. unfold clean_command. destruct (find_start 0 raw); [|done].
    apply strip_head.
  - intros c. unfold clean_command. destruct (find_start 0 raw); [|done].
    apply strip_last.
  - intros b rest -> Hb Hascii.
    change (b :: rest) with ([] ++ b :: rest) at 1.
    rewrite clean_command_header by done.
    rewrite decode_utf8_ignore_ascii; [done|].
    by apply Forall_fmap.
  - intros b rest payload -> Hb Hscalar Hbytes.
    change (b :: rest) with ([] ++ b :: rest) at 1.
    rewrite clean_command_header by done.
    by rewrite Hbytes, decode_utf8_ignore_encode_text.
Qed.

Lemma clean_command_spec_witness :
  clean_command ascii_runtime (raw_of "Light.x ON  ")
  = strip ascii_runtime (Byte.to_N <$> raw_of "Light.x ON  ").
Proof.
  apply (proj1 (proj2 (proj2 (proj2 (proj2
           (clean_command_spec ascii_runtime (raw_of "Light.x ON  "))))))
           "L"%byte (raw_of "ight.x ON  ")).
  - reflexivity.
  - reflexivity.
  - apply (bool_decide_unpack _). vm_compute. exact I.
Defined.

(** ** Properties of [handle] *)

Lemma release_shape (conn : connection) :
  ∃ tr o, release conn = (Close :: tr, o)
    ∧ exited tr = false ∧ posts tr = [] ∧ closed tr = false
    ∧ (o = Val tt ∨ ∃ e, o = Raise e ∧ is_Exception e = false)
    ∧ (quiet_close conn → o = Val tt).
Proof.
  unfold release, writer_close, writer_wait_closed, quiet_close.
  rewrite !bind_emit.
  destruct (close_raises conn) as [e|] eqn:Hc.
  - destruct (is_Exception e) eqn:He; simpl; rewrite He; do 2 eexists;
      (split; [reflexivity|]); split_and!; eauto.
    intros Hq. specialize (Hq e (or_introl eq_refl)). congruence.
  - destruct (wait_closed_raises conn) as [e|] eqn:Hw; simpl.
    + destruct (is_Exception e) eqn:He; do 2 eexists;
        (split; [reflexivity|]); split_and!; eauto.
      intros Hq. specialize (Hq e (or_intror eq_refl)). congruence.
    + do 2 eexists. split; [reflexivity|]. split_and!; eauto.
Qed.

Lemma call_ha_service_run (cfg : config) (hub : text → gmap string pyval → post_result)
    (domain service : text) (data : gmap string pyval) :
  let url := service_url cfg domain service in
  call_ha_service cfg hub domain service data
  = ([Log INFO (LogUrl url); Post url (request_headers cfg) data 5],
     match failure_of (hub url data) with
     | Some err => Raise err
     | None => Val tt
     end).
Proof.
  intros url. unfold call_ha_service, requests_post. fold url.
  rewrite bind_log, bind_emit. unfold failure_of.
  destruct (hub url data) as [status_code body|k]; simpl; [|done].
  by destruct (400 <=? status_code)%Z.
Qed.

Section HandleFacts.
Context (rt : python_runtime) (cfg : config) (conn : connection).

#[local] Arguments call_ha_service : simpl never.
#[local] Arguments build_service_call : simpl never.
#[local] Arguments parse_command : simpl never.
#[local] Arguments clean_command : simpl never.
#[local] Arguments release : simpl never.

Lemma handle_parse_error raw e :
  readline conn = Ok raw →
  parse_command rt (clean_command rt raw) = Raised e →
  is_ValueError e = true →
  handle rt cfg conn
  = function
      (try_finally
         ([Log INFO (LogRx (peername conn) (clean_command rt raw));
           Log WARNING (LogInputError e (clean_command rt raw))], Return)
         (release conn)).
Proof.
  intros Hread Hparse He. unfold handle. rewrite Hread, bind_lift_ok.
  cbv zeta. rewrite bind_log, Hparse. simpl. rewrite He. simpl.
  reflexivity.
Qed.

Lemma handle_build_error raw entity_id action brightness :
  readline conn = Ok raw →
  parse_command rt (clean_command rt raw) = Ok (entity_id, action, brightness) →
  46%N ∉ entity_id →
  ∃ e, is_ValueError e = true ∧
  handle rt cfg conn
  = function
      (try_finally
         ([Log INFO (LogRx (peername conn) (clean_command rt raw));
           Log WARNING (LogBuildError e (clean_command rt raw))], Return)
         (release conn)).
Proof.
  intros Hread Hparse Hno. eexists. split; [|].
  2:{ unfold handle. rewrite Hread, bind_lift_ok.
      cbv zeta. rewrite bind_log, Hparse. simpl.
      rewrite build_service_call_raises by done. simpl. reflexivity. }
  done.
Qed.

Lemma handle_call raw entity_id action brightness svc_domain service data :
  readline conn = Ok raw →
  parse_command rt (clean_command rt raw) = Ok (entity_id, action, brightness) →
  build_service_call entity_id action brightness
  = ([Log INFO (LogJson svc_domain service data)], Val (svc_domain, service, data)) →
  let url := service_url cfg svc_domain service in
  let sent :=
    [Log INFO (LogRx (peername conn) (clean_command rt raw));
     Log INFO (LogJson svc_domain service data);
     Log INFO (LogHACall svc_domain service data);
     Log INFO (LogUrl url);
     Post url (request_headers cfg) data 5] in
  handle rt cfg conn
  = match failure_of (hub conn url data) with
    | Some err => (sent ++ [Log ERROR (LogFatal err); OsExit 1], Exited 1)
    | None =>
        function (try_finally (sent ++ [Log INFO LogOK], Val tt) (release conn))
    end.
Proof.
  intros Hread Hparse Hbuild url sent. unfold handle.
  rewrite Hread, bind_lift_ok. cbv zeta. rewrite bind_log, Hparse. simpl.
  rewrite Hbuild. simpl. unfold to_thread. rewrite call_ha_service_run. fold url.
  unfold failure_of.
  destruct (hub conn url data) as [status_code body|k]; [|reflexivity].
  destruct (400 <=? status_code)%Z; reflexivity.
Qed.

Lemma handle_read_error e :
  readline conn = Raised e →
  handle rt cfg conn
  = if is_Exception e
    then ([Log ERROR (LogFatal e); OsExit 1], Exited 1)
    else function (try_finally ([], Raise e) (release conn)).
Proof.
  intros Hread. unfold handle. rewrite Hread, bind_lift_raised. simpl.
  destruct (is_Exception e); reflexivity.
Qed.

(** The [finally] block after a body that did not terminate the
    process. *)
Lemma finish_shape (t : list event) (o : outcome unit) :
  (∀ code, o ≠ Exited code) →
  ∃ tr' o',
    function (try_finally (t, o) (release conn)) = (t ++ Close :: tr', o')
    ∧ exited tr' = false ∧ posts tr' = [] ∧ closed tr' = false
    ∧ (∀ code, o' ≠ Exited code)
    ∧ (quiet_close conn →
       o' = match o with Return => Val tt | _ => o end).
Proof.
  intros Ho.
  destruct (release_shape conn) as (tr' & o' & -> & Hex & Hposts & Hcl & Ho' & Hq).
  destruct o as [[]| e | |code]; [..|by destruct (Ho code)];
    (destruct Ho' as [->|(e' & -> & He')]; simpl; do 2 eexists;
     (split; [reflexivity|]); split_and!; try done;
     intros Hquiet; specialize (Hq Hquiet); congruence).
Qed.
End HandleFacts.

Lemma parse_bulb_full (rt : python_runtime) :
  parse_command rt (txt "light.bulb1 on 100%")
  = Ok (txt "light.bulb1", txt "on", Some 255%Z).
Proof. vm_compute. reflexivity. Qed.

Lemma build_bulb_full :
  build_service_call (txt "light.bulb1") (txt "on") (Some 255%Z)
  = ([Log INFO (LogJson (txt "light") (txt "turn_on")
                  (<["brightness" := PyInt 255]>
                     {[ "entity_id" := PyStr (txt "light.bulb1") ]}))],
     Val (txt "light", txt "turn_on",
          <["brightness" := PyInt 255]>
            {[ "entity_id" := PyStr (txt "light.bulb1") ]})).
Proof. reflexivity. Qed.

Lemma posts_app (t1 t2 : list event) : posts (t1 ++ t2) = posts t1 ++ posts t2.
Proof. apply omap_app. Qed.

Lemma closed_app (t1 t2 : list event) : closed (t1 ++ t2) = closed t1 || closed t2.
Proof. apply existsb_app. Qed.

Lemma exited_app (t1 t2 : list event) : exited (t1 ++ t2) = exited t1 || exited t2.
Proof. apply existsb_app. Qed.

(** Whatever the connection and the hub do, a run of the handler either
    terminates the process, and then without closing the socket, or closes
    the socket and leaves the process running. *)
Lemma handle_exit_or_close (rt : python_runtime) (cfg : config) (conn : connection) :
  ((handle rt cfg conn).2 = Exited 1
   ∧ exited (handle rt cfg conn).1 = true
   ∧ closed (handle rt cfg conn).1 = false)
  ∨ ((∀ code, (handle rt cfg conn).2 ≠ Exited code)
     ∧ exited (handle rt cfg conn).1 = false
     ∧ closed (handle rt cfg conn).1 = true).
Proof.
  assert (Hfinish : ∀ t o,
    (∀ code, o ≠ Exited code) → exited t = false →
    let r := function (try_finally (t, o) (release conn)) in
    (∀ code, r.2 ≠ Exited code) ∧ exited r.1 = false ∧ closed r.1 = true).
  { intros t o Ho Ht.
    destruct (finish_shape conn t o Ho) as (tr' & o' & Hr & Hex & _ & _ & Ho' & _).
    cbv zeta. rewrite Hr. simpl. split; [done|].
    rewrite exited_app, closed_app, Ht. simpl. rewrite Hex.
    split; [done|]. apply orb_true_r. }
  destruct (readline conn) as [raw|e] eqn:Hread.
  2:{ rewrite (handle_read_error rt cfg conn e Hread).
      destruct (is_Exception e); [left; by split_and!|right].
      by apply Hfinish. }
  destruct (parse_command rt (clean_command rt raw)) as [[[entity_id action] brightness]|e]
    eqn:Hparse.
  2:{ rewrite (handle_parse_error rt cfg conn raw e Hread Hparse)
        by eauto using parse_command_error_kind.
      right. by apply Hfinish. }
  destruct (decide (46%N ∈ entity_id)) as [Hin|Hno].
  2:{ destruct (handle_build_error rt cfg conn raw _ _ _ Hread Hparse Hno)
        as (e & _ & ->).
      right. by apply Hfinish. }
  destruct (build_service_call_ok entity_id action brightness Hin)
    as (sd & sv & data & Hbuild & _).
  rewrite (handle_call rt cfg conn raw _ _ _ _ _ _ Hread Hparse Hbuild).
  destruct (failure_of _); [left; by split_and!|right].
  by apply Hfinish.
Qed.

(** C1, as the code has it. When the frame parses and maps and the outbound
    call fails (a status of 400 or more, or a failure of the transport), the
    handler logs the failure as a fatal error and terminates the process with
    status 1: the call is the only one made, and nothing runs after
    [os._exit]. *)
Theorem invoke_failure_is_fatal (rt : python_runtime) (cfg : config)
    (conn : connection) (raw : list byte) (entity_id action : text)
    (brightness : option Z) (tr0 : list event) (svc_domain service : text)
    (data : gmap string pyval) (err : exn) :
  readline conn = Ok raw →
  parse_command rt (clean_command rt raw) = Ok (entity_id, action, brightness) →
  build_service_call entity_id action brightness
  = (tr0, Val (svc_domain, service, data)) →
  failure_of (hub conn (service_url cfg svc_domain service) data) = Some err →
  ∃ tr,
    handle rt cfg conn = (tr ++ [Log ERROR (LogFatal err); OsExit 1], Exited 1)
    ∧ posts tr = [(service_url cfg svc_domain service, data)]
    ∧ exited tr = false ∧ closed tr = false.
Proof.
  intros Hread Hparse Hbuild Hfail.
  destruct (decide (46%N ∈ entity_id)) as [Hin|Hno];
    [|by rewrite build_service_call_raises in Hbuild].
  destruct (build_service_call_ok entity_id action brightness Hin)
    as (sd & sv & data' & Hbuild' & _).
  rewrite Hbuild' in Hbuild. simplify_eq.
  rewrite (handle_call rt cfg conn raw _ _ _ _ _ _ Hread Hparse Hbuild'), Hfail.
  eexists. split; [reflexivity|]. done.
Qed.

Lemma invoke_failure_is_fatal_witness :
  ∃ tr,
    handle ascii_runtime example_config
      (connection_of example_frame (Failed ConnectionRefused))
    = (tr ++ [Log ERROR (LogFatal (RequestException ConnectionRefused)); OsExit 1],
       Exited 1)
    ∧ posts tr
      = [(service_url example_config (txt "light") (txt "turn_on"),
          <["brightness" := PyInt 255]>
            {[ "entity_id" := PyStr (txt "light.bulb1") ]})]
    ∧ exited tr = false ∧ closed tr = false.
Proof.
  apply (invoke_failure_is_fatal ascii_runtime example_config
           (connection_of example_frame (Failed ConnectionRefused))
           example_frame (txt "light.bulb1") (txt "on") (Some 255%Z)
           [Log INFO (LogJson (txt "light") (txt "turn_on")
                        (<["brightness" := PyInt 255]>
                           {[ "entity_id" := PyStr (txt "light.bulb1") ]}))]);
    vm_compute; reflexivity.
Defined.

(** C1, as the specification has it, fails: a frame that parses and maps,
    a hub that answers 500, and the handler does not return; it terminates
    the process. *)
Lemma invoke_failure_is_not_clean :
  parse_command ascii_runtime (clean_command ascii_runtime example_frame)
  = Ok (txt "light.bulb1", txt "on", Some 255%Z)
  ∧ (build_service_call (txt "light.bulb1") (txt "on") (Some 255%Z)).2
    = Val (txt "light", txt "turn_on",
           <["brightness" := PyInt 255]>
             {[ "entity_id" := PyStr (txt "light.bulb1") ]})
  ∧ failure_of (Response 500 (txt "Internal Server Error"))
    = Some (RuntimeError 500 (txt "Internal Server Error"))
  ∧ (handle ascii_runtime example_config
       (connection_of example_frame
          (Response 500 (txt "Internal Server Error")))).2 = Exited 1
  ∧ (handle ascii_runtime example_config
       (connection_of example_frame
          (Response 500 (txt "Internal Server Error")))).2 ≠ Val tt
  ∧ last (handle ascii_runtime example_config
            (connection_of example_frame
               (Response 500 (txt "Internal Server Error")))).1
    = Some (OsExit 1).
Proof. vm_compute. split_and!; (reflexivity || discriminate). Qed.

(** C2, at the input where the code misses it: the hub answers 500, the
    handler ends in [os._exit(1)], and the [finally] block that closes the
    socket never runs. With an answer of 200 the same frame ends with the
    socket closed. *)
Theorem fatal_path_skips_close :
  let failing := handle ascii_runtime example_config
                   (connection_of example_frame (Response 500 [])) in
  let passing := handle ascii_runtime example_config
                   (connection_of example_frame (Response 200 [])) in
  failing.2 = Exited 1 ∧ exited failing.1 = true ∧ closed failing.1 = false
  ∧ passing.2 = Val tt ∧ exited passing.1 = false ∧ closed passing.1 = true.
Proof. vm_compute. split_and!; reflexivity. Qed.

(** The part of the end-to-end behaviour that holds on every run. A frame
    whose text is [light.bulb1 on 100%], as any header of bytes that are not
    letters followed by that text and a line feed is, makes exactly one
    outbound call, with payload [entity_id = light.bulb1] and
    [brightness = 255]; when the call succeeds, the socket is closed after
    it, and the handler returns if closing raises nothing but an
    [Exception]. A frame whose text does not parse makes no outbound call,
    the socket is closed, and the handler returns under the same condition
    on closing. *)
Theorem bulb_end_to_end (rt : python_runtime) (cfg : config) (conn : connection)
    (raw : list byte) :
  readline conn = Ok raw →
  let url := service_url cfg (txt "light") (txt "turn_on") in
  let payload : gmap string pyval :=
    <["brightness" := PyInt 255]> {[ "entity_id" := PyStr (txt "light.bulb1") ]} in
  (∀ header,
     Forall (λ b, is_ascii_letter b = false) header →
     raw = header ++ raw_of "light.bulb1 on 100%" ++ [x0a] →
     clean_command rt raw = txt "light.bulb1 on 100%")
  ∧ (clean_command rt raw = txt "light.bulb1 on 100%" →
     posts (handle rt cfg conn).1 = [(url, payload)]
     ∧ (failure_of (hub conn url payload) = None →
        closed_after_post (handle rt cfg conn).1 = true
        ∧ exited (handle rt cfg conn).1 = false
        ∧ (quiet_close conn → (handle rt cfg conn).2 = Val tt)))
  ∧ ((∃ e, parse_command rt (clean_command rt raw) = Raised e) →
     posts (handle rt cfg conn).1 = []
     ∧ closed (handle rt cfg conn).1 = true
     ∧ exited (handle rt cfg conn).1 = false
     ∧ (quiet_close conn → (handle rt cfg conn).2 = Val tt)).
Proof.
  intros Hread url payload. split_and!.
  - intros header Hheader ->. by apply clean_command_bulb_frame.
  - intros Hclean.
    pose proof (parse_bulb_full rt) as Hparse. rewrite <- Hclean in Hparse.
    rewrite (handle_call rt cfg conn raw _ _ _ _ _ _ Hread Hparse build_bulb_full).
    fold url payload.
    destruct (failure_of (hub conn url payload)) as [err|]; [by split|].
    destruct (finish_shape conn
                ([Log INFO (LogRx (peername conn) (clean_command rt raw));
                  Log INFO (LogJson (txt "light") (txt "turn_on") payload);
                  Log INFO (LogHACall (txt "light") (txt "turn_on") payload);
                  Log INFO (LogUrl url);
                  Post url (request_headers cfg) payload 5] ++ [Log INFO LogOK])
                (Val tt) ltac:(done))
      as (tr' & o' & Hr & Hex & Hposts & Hcl & Ho' & Hq).
    rewrite Hr. simpl. rewrite Hposts. split; [done|]. intros _.
    rewrite Hex. done.
  - intros [e Hparse].
    rewrite (handle_parse_error rt cfg conn raw e Hread Hparse)
      by eauto using parse_command_error_kind.
    destruct (finish_shape conn
                [Log INFO (LogRx (peername conn) (clean_command rt raw));
                 Log WARNING (LogInputError e (clean_command rt raw))]
                Return ltac:(done))
      as (tr' & o' & Hr & Hex & Hposts & Hcl & Ho' & Hq).
    rewrite Hr. simpl. rewrite Hposts, Hex. done.
Qed.

Lemma bulb_end_to_end_witness :
  posts (handle ascii_runtime example_config
           (connection_of example_frame (Response 200 []))).1
  = [(service_url example_config (txt "light") (txt "turn_on"),
      <["brightness" := PyInt 255]>
        {[ "entity_id" := PyStr (txt "light.bulb1") ]})].
Proof.
  apply (bulb_end_to_end ascii_runtime example_config
           (connection_of example_frame (Response 200 [])) example_frame eq_refl).
  reflexivity.
Defined.

(** C4, at the input where the code misses it: the frame of the example and
    a hub that cannot be reached in time. The one outbound call goes out with
    the payload of the claim, the failure takes the handler to
    [os._exit(1)] inside the [except] clause, and the [finally] block never
    runs: the socket is not closed after the call. *)
Lemma bulb_call_failure_leaves_socket :
  clean_command ascii_runtime example_frame = txt "light.bulb1 on 100%"
  ∧ posts (handle ascii_runtime example_config
             (connection_of example_frame (Failed Timeout))).1
    = [(service_url example_config (txt "light") (txt "turn_on"),
        <["brightness" := PyInt 255]>
          {[ "entity_id" := PyStr (txt "light.bulb1") ]})]
  ∧ closed_after_post (handle ascii_runtime example_config
                         (connection_of example_frame (Failed Timeout))).1
    = false
  ∧ closed (handle ascii_runtime example_config
              (connection_of example_frame (Failed Timeout))).1 = false
  ∧ (handle ascii_runtime example_config
       (connection_of example_frame (Failed Timeout))).2 = Exited 1.
Proof. vm_compute. split_and!; reflexivity. Qed.


(** ** Further properties of [handle] *)

Lemma logged_app (lvl : level) (t1 t2 : list event) :
  logged lvl (t1 ++ t2) = logged lvl t1 || logged lvl t2.
Proof. apply existsb_app. Qed.

Lemma release_quiet_log (conn : connection) (lvl : level) :
  logged lvl (release conn).1 = false.
Proof.
  unfold release, writer_close, writer_wait_closed. rewrite !bind_emit.
  destruct (close_raises conn) as [e|]; simpl.
  - by destruct (is_Exception e).
  - destruct (wait_closed_raises conn) as [e|]; simpl; [|done].
    by destruct (is_Exception e).
Qed.

(** The [finally] block after a body that did not terminate the process:
    what the body ended with stands, a [return] ends the function, and only
    an exception of closing that is no [Exception] replaces it. *)
Lemma finish_outcome (conn : connection) (t : list event) (o : outcome unit) :
  (∀ code, o ≠ Exited code) →
  ∃ tr' o',
    function (try_finally (t, o) (release conn)) = (t ++ Close :: tr', o')
    ∧ exited tr' = false ∧ posts tr' = [] ∧ closed tr' = false
    ∧ (∀ lvl, logged lvl tr' = false)
    ∧ (o' = match o with Return => Val tt | _ => o end
       ∨ ∃ e, o' = Raise e ∧ is_Exception e = false)
    ∧ (quiet_close conn → o' = match o with Return => Val tt | _ => o end).
Proof.
  intros Ho.
  pose proof (release_quiet_log conn) as Hlog.
  destruct (release_shape conn) as (tr' & o' & Hrel & Hex & Hposts & Hcl & Ho' & Hq).
  rewrite Hrel in Hlog. rewrite Hrel. simpl in Hlog.
  destruct o as [[]| e | |code]; [..|by destruct (Ho code)];
    (destruct Ho' as [->|(e' & -> & He')]; simpl; do 2 eexists;
     (split; [reflexivity|]); split_and!; try done; eauto;
     intros Hquiet; specialize (Hq Hquiet); congruence).
Qed.

(** How the function ends after the [finally] block: as its body did, or
    with what [close] or [wait_closed] raised when that is no
    [Exception]. *)
Lemma finish_return (conn : connection) (t : list event) (o : outcome unit) :
  (∀ code, o ≠ Exited code) →
  (function (try_finally (t, o) (release conn))).2
  = match o with Return => Val tt | _ => o end
  ∨ ∃ e,
      (function (try_finally (t, o) (release conn))).2 = Raise e
      ∧ is_Exception e = false
      ∧ (close_raises conn = Some e
         ∨ close_raises conn = None ∧ wait_closed_raises conn = Some e).
Proof.
  intros Ho. unfold release, writer_close, writer_wait_closed.
  rewrite !bind_emit.
  destruct o as [[]| e0 | |code]; [..|by destruct (Ho code)];
    (destruct (close_raises conn) as [e|] eqn:Hc; simpl;
     [destruct (is_Exception e) eqn:He; simpl; eauto 10
     |destruct (wait_closed_raises conn) as [e|] eqn:Hw; simpl;
      [destruct (is_Exception e) eqn:He; simpl; eauto 10|eauto]]).
Qed.

(** An exception of closing that is no [Exception] passes the [except]
    clause of the [finally] block and takes the place of whatever the body
    ended with. *)
Lemma finish_raise (conn : connection) (t : list event) (o : outcome unit)
    (e : exn) :
  (∀ code, o ≠ Exited code) →
  is_Exception e = false →
  close_raises conn = Some e
  ∨ close_raises conn = None ∧ wait_closed_raises conn = Some e →
  (function (try_finally (t, o) (release conn))).2 = Raise e.
Proof.
  intros Ho He Hc. unfold release, writer_close, writer_wait_closed.
  rewrite !bind_emit.
  destruct o as [[]| e0 | |code]; [..|by destruct (Ho code)];
    (destruct Hc as [->|[-> ->]]; simpl; by rewrite He).
Qed.

(** The two ways a run of the handler can go: the fatal branch, whose trace
    ends with the log record and [os._exit(1)], or a body that ends without
    terminating the process, followed by the [finally] block. Either way at
    most one call went out, and it has the shape of a service call. *)
Lemma handle_paths (rt : python_runtime) (cfg : config) (conn : connection) :
  (∃ t e,
     handle rt cfg conn = (t ++ [Log ERROR (LogFatal e); OsExit 1], Exited 1)
     ∧ is_Exception e = true
     ∧ exited t = false ∧ closed t = false
     ∧ (posts t = [] ∨ ∃ p, posts t = [p] ∧ service_call_shape cfg p))
  ∨ (∃ t o,
       handle rt cfg conn = function (try_finally (t, o) (release conn))
       ∧ (o = Val tt ∨ o = Return ∨ ∃ e, o = Raise e ∧ is_Exception e = false)
       ∧ exited t = false ∧ closed t = false ∧ logged ERROR t = false
       ∧ (posts t = [] ∨ ∃ p, posts t = [p] ∧ service_call_shape cfg p)).
Proof.
  destruct (readline conn) as [raw|e] eqn:Hread.
  2:{ rewrite (handle_read_error rt cfg conn e Hread).
      destruct (is_Exception e) eqn:He.
      - left. exists [], e. split_and!; auto.
      - right. exists [], (Raise e). split_and!; eauto. }
  destruct (parse_command rt (clean_command rt raw))
    as [[[entity_id action] brightness]|e] eqn:Hparse.
  2:{ rewrite (handle_parse_error rt cfg conn raw e Hread Hparse)
        by eauto using parse_command_error_kind.
      right. do 2 eexists. split; [reflexivity|]. split_and!; auto. }
  destruct (decide (46%N ∈ entity_id)) as [Hin|Hno].
  2:{ destruct (handle_build_error rt cfg conn raw _ _ _ Hread Hparse Hno)
        as (e & _ & ->).
      right. do 2 eexists. split; [reflexivity|]. split_and!; auto. }
  destruct (build_service_call_ok entity_id action brightness Hin)
    as (sd & sv & data & Hbuild & Hsd & Hsv & Hid & _).
  assert (Hshape : service_call_shape cfg (service_url cfg sd sv, data)).
  { exists sd, sv. split; [done|]. split_and!.
    - rewrite Hsd. repeat case_bool_decide; auto.
    - rewrite Hsv. case_bool_decide; auto.
    - simpl. by rewrite Hid. }
  rewrite (handle_call rt cfg conn raw _ _ _ _ _ _ Hread Hparse Hbuild).
  unfold failure_of.
  destruct (hub conn (service_url cfg sd sv) data) as [status_code body|k].
  - destruct (400 <=? status_code)%Z.
    + left. do 2 eexists. split; [reflexivity|]. split_and!; eauto.
    + right. do 2 eexists. split; [reflexivity|]. split_and!; eauto.
  - left. do 2 eexists. split; [reflexivity|]. split_and!; eauto.
Qed.

(** X1. A run of the handler ends in one of three ways: it returns, it
    terminates the process with status 1, or an exception that is no
    [Exception] (a cancellation) leaves it; no [Exception] ever escapes. The
    process is terminated exactly when the trace holds an [os._exit], and the
    socket is closed exactly when it does not. *)
Theorem handle_terminal_outcomes (rt : python_runtime) (cfg : config)
    (conn : connection) :
  ((handle rt cfg conn).2 = Val tt
   ∨ (handle rt cfg conn).2 = Exited 1
   ∨ ∃ e, (handle rt cfg conn).2 = Raise e ∧ is_Exception e = false)
  ∧ ((handle rt cfg conn).2 = Exited 1 ↔ exited (handle rt cfg conn).1 = true)
  ∧ closed (handle rt cfg conn).1 = negb (exited (handle rt cfg conn).1).
Proof.
  destruct (handle_paths rt cfg conn)
    as [(t & e & -> & _ & Hex & Hcl & _)|(t & o & -> & Ho & Hex & Hcl & _)].
  - simpl. rewrite exited_app, closed_app, Hex, Hcl. simpl.
    split_and!; [auto|done|done].
  - destruct (finish_outcome conn t o) as (tr' & o' & -> & Hex' & _ & _ & _ & Ho' & _).
    { intros code. by destruct Ho as [->|[->|(e & -> & _)]]. }
    simpl. rewrite exited_app, closed_app, Hex, Hcl. simpl. rewrite Hex'.
    split_and!; [|split; [|done]|done].
    + destruct Ho' as [->|?]; [|auto].
      destruct Ho as [->|[->|(e & -> & He)]]; eauto.
    + intros ->. destruct Ho' as [Ho'|(e' & ? & _)]; [|done].
      by destruct Ho as [->|[->|(e & -> & He)]].
Qed.

(** X2. Whatever the peer sends and the hub answers, one run of the handler
    makes at most one outbound call, and that call is a POST to
    [<HA_URL>/api/services/<domain>/<service>] with domain [light], [switch]
    or [homeassistant], service [turn_on] or [turn_off], and an [entity_id]
    in the body. *)
Theorem handle_calls_bounded (rt : python_runtime) (cfg : config)
    (conn : connection) :
  posts (handle rt cfg conn).1 = []
  ∨ ∃ p, posts (handle rt cfg conn).1 = [p] ∧ service_call_shape cfg p.
Proof.
  destruct (handle_paths rt cfg conn)
    as [(t & e & -> & _ & _ & _ & Hp)|(t & o & -> & Ho & _ & _ & _ & Hp)].
  - simpl. rewrite posts_app. simpl. rewrite app_nil_r. done.
  - destruct (finish_outcome conn t o) as (tr' & o' & -> & _ & Hp' & _).
    { intros code. by destruct Ho as [->|[->|(e & -> & _)]]. }
    simpl. rewrite posts_app. simpl. rewrite Hp', app_nil_r. done.
Qed.



(** X4. A line that parses but whose entity reference has no [.] is dropped:
    a warning is logged, no outbound call is made, nothing is logged as an
    error, the socket is closed and the process goes on. The handler then
    returns, unless [close], or [wait_closed] after a [close] that raised
    nothing, raises something that is no [Exception] (a cancellation): that
    is raised by the handler in place of the return. *)
Theorem handle_unmapped_entity (rt : python_runtime) (cfg : config)
    (conn : connection) (raw : list byte) (entity_id action : text)
    (brightness : option Z) :
  readline conn = Ok raw →
  parse_command rt (clean_command rt raw) = Ok (entity_id, action, brightness) →
  46%N ∉ entity_id →
  posts (handle rt cfg conn).1 = []
  ∧ logged WARNING (handle rt cfg conn).1 = true
  ∧ logged ERROR (handle rt cfg conn).1 = false
  ∧ closed (handle rt cfg conn).1 = true
  ∧ exited (handle rt cfg conn).1 = false
  ∧ ((handle rt cfg conn).2 = Val tt
     ∨ ∃ e, (handle rt cfg conn).2 = Raise e
         ∧ is_Exception e = false
         ∧ (close_raises conn = Some e
            ∨ close_raises conn = None ∧ wait_closed_raises conn = Some e))
  ∧ (∀ e, is_Exception e = false →
       close_raises conn = Some e
       ∨ close_raises conn = None ∧ wait_closed_raises conn = Some e →
       (handle rt cfg conn).2 = Raise e)
  ∧ (quiet_close conn → (handle rt cfg conn).2 = Val tt).
Proof.
  intros Hread Hparse Hno.
  destruct (handle_build_error rt cfg conn raw _ _ _ Hread Hparse Hno)
    as (e & _ & ->).
  match goal with
  | |- context [function (try_finally (?t, ?o) _)] =>
      pose proof (finish_return conn t o ltac:(done)) as Hret;
      pose proof (λ e, finish_raise conn t o e ltac:(done)) as Hraise;
      destruct (finish_outcome conn t o ltac:(done))
        as (tr' & o' & Hrun & Hex & Hp & Hcl & Hlog & _ & Hq)
  end.
  rewrite Hrun in Hret |- *.
  setoid_rewrite Hrun in Hraise.
  simpl. rewrite Hex, Hp, Hlog. done.
Qed.

Lemma handle_unmapped_entity_witness :
  posts (handle ascii_runtime example_config
           (connection_of (raw_of "bulb1 on 10") (Response 200 []))).1 = [].
Proof.
  apply (handle_unmapped_entity ascii_runtime example_config
           (connection_of (raw_of "bulb1 on 10") (Response 200 []))
           (raw_of "bulb1 on 10") (txt "bulb1") (txt "on") (Some 10%Z)).
  - reflexivity.
  - vm_compute. reflexivity.
  - apply (bool_decide_unpack _). vm_compute. exact I.
Defined.

(** X5. A frame without an ASCII letter, such as the empty frame of a peer
    that closed before sending, is dropped as an empty command: the handler
    logs the empty line and the warning [Empty command], closes the socket
    and makes no outbound call. It then returns, unless [close], or
    [wait_closed] after a [close] that raised nothing, raises something that
    is no [Exception] (a cancellation): that is raised by the handler in
    place of the return. *)
Theorem handle_blank_frame (rt : python_runtime) (cfg : config)
    (conn : connection) (raw : list byte) :
  readline conn = Ok raw →
  Forall (λ b, is_ascii_letter b = false) raw →
  ∃ tr,
    (handle rt cfg conn).1
    = [Log INFO (LogRx (peername conn) []);
       Log WARNING (LogInputError (ValueError "Empty command") []);
       Close] ++ tr
    ∧ posts tr = [] ∧ exited tr = false ∧ (∀ lvl, logged lvl tr = false)
    ∧ ((handle rt cfg conn).2 = Val tt
       ∨ ∃ e, (handle rt cfg conn).2 = Raise e
           ∧ is_Exception e = false
           ∧ (close_raises conn = Some e
              ∨ close_raises conn = None ∧ wait_closed_raises conn = Some e))
    ∧ (∀ e, is_Exception e = false →
         close_raises conn = Some e
         ∨ close_raises conn = None ∧ wait_closed_raises conn = Some e →
         (handle rt cfg conn).2 = Raise e)
    ∧ (quiet_close conn → (handle rt cfg conn).2 = Val tt).
Proof.
  intros Hread Hraw.
  assert (Hclean : clean_command rt raw = []).
  { unfold clean_command. by rewrite find_start_none. }
  assert (Hparse : parse_command rt (clean_command rt raw)
                   = Raised (ValueError "Empty command")) by by rewrite Hclean.
  rewrite (handle_parse_error rt cfg conn raw _ Hread Hparse) by done.
  rewrite Hclean.
  match goal with
  | |- context [function (try_finally (?t, ?o) _)] =>
      pose proof (finish_return conn t o ltac:(done)) as Hret;
      pose proof (λ e, finish_raise conn t o e ltac:(done)) as Hraise;
      destruct (finish_outcome conn t o ltac:(done))
        as (tr' & o' & Hrun & Hex & Hp & Hcl & Hlog & _ & Hq)
  end.
  rewrite Hrun in Hret |- *.
  setoid_rewrite Hrun in Hraise.
  exists tr'. done.
Qed.

Lemma handle_blank_frame_witness :
  ∃ tr,
    (handle ascii_runtime example_config (connection_of [] (Response 200 []))).1
    = [Log INFO (LogRx (txt "192.0.2.7") []);
       Log WARNING (LogInputError (ValueError "Empty command") []);
       Close] ++ tr
    ∧ posts tr = [] ∧ exited tr = false ∧ (∀ lvl, logged lvl tr = false)
    ∧ ((handle ascii_runtime example_config
          (connection_of [] (Response 200 []))).2 = Val tt
       ∨ ∃ e, (handle ascii_runtime example_config
                 (connection_of [] (Response 200 []))).2 = Raise e
           ∧ is_Exception e = false
           ∧ (close_raises (connection_of [] (Response 200 [])) = Some e
              ∨ close_raises (connection_of [] (Response 200 [])) = None
                ∧ wait_closed_raises (connection_of [] (Response 200 [])) = Some e))
    ∧ (∀ e, is_Exception e = false →
         close_raises (connection_of [] (Response 200 [])) = Some e
         ∨ close_raises (connection_of [] (Response 200 [])) = None
           ∧ wait_closed_raises (connection_of [] (Response 200 [])) = Some e →
         (handle ascii_runtime example_config
            (connection_of [] (Response 200 []))).2 = Raise e)
    ∧ (quiet_close (connection_of [] (Response 200 [])) →
       (handle ascii_runtime example_config
          (connection_of [] (Response 200 []))).2 = Val tt).
Proof.
  apply (handle_blank_frame ascii_runtime example_config
           (connection_of [] (Response 200 [])) []).
  - reflexivity.
  - constructor.
Defined.

(** X6. When the line parses, the entity reference maps and the hub answers
    the call with a status below 400, the handler makes exactly that one
    call, logs [OK], logs no warning and no error, closes the socket after
    the call and leaves the process running. It then returns, unless [close],
    or [wait_closed] after a [close] that raised nothing, raises something
    that is no [Exception] (a cancellation): that is raised by the handler
    in place of the return. *)
Theorem handle_success (rt : python_runtime) (cfg : config) (conn : connection)
    (raw : list byte) (entity_id action : text) (brightness : option Z)
    (tr0 : list event) (svc_domain service : text) (data : gmap string pyval) :
  readline conn = Ok raw →
  parse_command rt (clean_command rt raw) = Ok (entity_id, action, brightness) →
  build_service_call entity_id action brightness
  = (tr0, Val (svc_domain, service, data)) →
  failure_of (hub conn (service_url cfg svc_domain service) data) = None →
  posts (handle rt cfg conn).1 = [(service_url cfg svc_domain service, data)]
  ∧ Log INFO LogOK ∈ (handle rt cfg conn).1
  ∧ logged WARNING (handle rt cfg conn).1 = false
  ∧ logged ERROR (handle rt cfg conn).1 = false
  ∧ closed_after_post (handle rt cfg conn).1 = true
  ∧ exited (handle rt cfg conn).1 = false
  ∧ ((handle rt cfg conn).2 = Val tt
     ∨ ∃ e, (handle rt cfg conn).2 = Raise e
         ∧ is_Exception e = false
         ∧ (close_raises conn = Some e
            ∨ close_raises conn = None ∧ wait_closed_raises conn = Some e))
  ∧ (∀ e, is_Exception e = false →
       close_raises conn = Some e
       ∨ close_raises conn = None ∧ wait_closed_raises conn = Some e →
       (handle rt cfg conn).2 = Raise e)
  ∧ (quiet_close conn → (handle rt cfg conn).2 = Val tt).
Proof.
  intros Hread Hparse Hbuild Hok.
  destruct (decide (46%N ∈ entity_id)) as [Hin|Hno];
    [|by rewrite build_service_call_raises in Hbuild].
  destruct (build_service_call_ok entity_id action brightness Hin)
    as (sd & sv & data' & Hbuild' & _).
  rewrite Hbuild' in Hbuild. simplify_eq.
  rewrite (handle_call rt cfg conn raw _ _ _ _ _ _ Hread Hparse Hbuild'), Hok.
  match goal with
  | |- context [function (try_finally (?t, ?o) _)] =>
      pose proof (finish_return conn t o ltac:(done)) as Hret;
      pose proof (λ e, finish_raise conn t o e ltac:(done)) as Hraise;
      destruct (finish_outcome conn t o ltac:(done))
        as (tr' & o' & Hrun & Hex & Hp & Hcl & Hlog & _ & Hq)
  end.
  rewrite Hrun in Hret |- *.
  setoid_rewrite Hrun in Hraise.
  simpl. rewrite Hex, Hp, !Hlog. split_and!; try done.
  do 5 apply list_elem_of_further. apply list_elem_of_here.
Qed.

Lemma handle_success_witness :
  posts (handle ascii_runtime example_config
           (connection_of (raw_of "Switch.Fan1  OFF 200") (Response 204 []))).1
  = [(service_url example_config (txt "switch") (txt "turn_off"),
      {[ "entity_id" := PyStr (txt "switch.fan1") ]})].
Proof.
  apply (handle_success ascii_runtime example_config
           (connection_of (raw_of "Switch.Fan1  OFF 200") (Response 204 []))
           (raw_of "Switch.Fan1  OFF 200") (txt "switch.fan1") (txt "off") None
           [Log INFO (LogJson (txt "switch") (txt "turn_off")
                        {[ "entity_id" := PyStr (txt "switch.fan1") ]})]);
    vm_compute; reflexivity.
Defined.

(** X7. The [finally] block of the handler closes the socket first and
    awaits [wait_closed] only when [close] raised nothing; an [Exception]
    raised by either is swallowed, and the block never terminates the
    process and never makes a call. *)
Theorem release_swallows_exceptions (conn : connection) :
  (release conn).1
  = match close_raises conn with
    | Some _ => [Close]
    | None => [Close; WaitClosed]
    end
  ∧ (∀ code, (release conn).2 ≠ Exited code)
  ∧ (∀ e, (release conn).2 = Raise e →
          is_Exception e = false
          ∧ (close_raises conn = Some e
             ∨ close_raises conn = None ∧ wait_closed_raises conn = Some e))
  ∧ (quiet_close conn → (release conn).2 = Val tt).
Proof.
  unfold release, writer_close, writer_wait_closed, quiet_close.
  rewrite !bind_emit.
  destruct (close_raises conn) as [e|] eqn:Hc; simpl.
  - destruct (is_Exception e) eqn:He; simpl; split_and!; try done.
    + intros e' [= <-]. auto.
    + intros Hq. rewrite (Hq e) in He by auto. done.
  - destruct (wait_closed_raises conn) as [e|] eqn:Hw; simpl;
      [|by split_and!].
    destruct (is_Exception e) eqn:He; simpl; split_and!; try done.
    + intros e' [= <-]. auto.
    + intros Hq. rewrite (Hq e) in He by auto. done.
Qed.

Lemma release_swallows_exceptions_witness :
  (release {| peername := txt "192.0.2.7"; readline := Ok [];
              hub := λ _ _, Response 200 [];
              close_raises := Some OSError;
              wait_closed_raises := None |}).2 = Val tt.
Proof.
  apply (release_swallows_exceptions
           {| peername := txt "192.0.2.7"; readline := Ok [];
              hub := λ _ _, Response 200 [];
              close_raises := Some OSError;
              wait_closed_raises := None |}).
  intros e [H|H]; [injection H as <-; reflexivity|discriminate H].
Defined.

(** ** Further properties of [call_ha_service] *)

(** X8. [call_ha_service] makes one POST and no more: to
    [<HA_URL>/api/services/<domain>/<service>], with a timeout of 5, the body
    it was given, and the two headers [Authorization: Bearer <HA_TOKEN>] and
    [Content-Type: application/json]. It returns for every status below 400,
    raises a [RuntimeError] that carries the status and the first 200
    characters of the body (the whole body when it is no longer than that)
    for a status of 400 or more, and lets a failure of the transport through
    as it is. *)
Theorem call_ha_service_contract (cfg : config)
    (hub : text → gmap string pyval → post_result)
    (domain service : text) (data : gmap string pyval) :
  (call_ha_service cfg hub domain service data).1
  = [Log INFO (LogUrl (service_url cfg domain service));
     Post (service_url cfg domain service) (request_headers cfg) data 5]
  ∧ service_url cfg domain service
    = HA_URL cfg ++ txt "/api/services/" ++ domain ++ txt "/" ++ service
  ∧ request_headers cfg !! "Authorization" = Some (txt "Bearer " ++ HA_TOKEN cfg)
  ∧ request_headers cfg !! "Content-Type" = Some (txt "application/json")
  ∧ (∀ k, is_Some (request_headers cfg !! k) →
          k = "Authorization" ∨ k = "Content-Type")
  ∧ (∀ status_code body,
       hub (service_url cfg domain service) data = Response status_code body →
       ((status_code < 400)%Z →
        (call_ha_service cfg hub domain service data).2 = Val tt)
       ∧ ((400 ≤ status_code)%Z →
          (call_ha_service cfg hub domain service data).2
          = Raise (RuntimeError status_code (take 200 body))
          ∧ length (take 200 body) = (length body `min` 200)%nat
          ∧ (∀ i, (i < 200)%nat → take 200 body !! i = body !! i)
          ∧ ((length body ≤ 200)%nat → take 200 body = body)))
  ∧ (∀ k, hub (service_url cfg domain service) data = Failed k →
          (call_ha_service cfg hub domain service data).2
          = Raise (RequestException k)).
Proof.
  pose proof (call_ha_service_run cfg hub domain service data) as Hrun.
  cbv zeta in Hrun. rewrite Hrun. simpl. split_and!; try done.
  - intros k [v Hv]. unfold request_headers in Hv.
    destruct (decide (k = "Content-Type")); [by right|].
    rewrite lookup_insert_ne in Hv by done.
    apply lookup_singleton_Some in Hv as [<- _]. by left.
  - intros status_code body ->. simpl. split; intros Hs.
    + destruct (Z.leb_spec 400 status_code); [lia|done].
    + destruct (Z.leb_spec 400 status_code); [|lia].
      split; [done|]. split; [by rewrite length_take; lia|]. split.
      * intros i Hi. by apply lookup_take_lt.
      * intros Hlen. by apply take_ge.
  - by intros k ->.
Qed.

Lemma call_ha_service_contract_witness :
  (call_ha_service example_config (λ _ _, Response 399 []) (txt "light")
     (txt "turn_on") ∅).2 = Val tt.
Proof.
  apply (proj1 (proj1 (proj2 (proj2 (proj2 (proj2 (proj2
           (call_ha_service_contract example_config (λ _ _, Response 399 [])
              (txt "light") (txt "turn_on") ∅))))))
           399%Z [] eq_refl)).
  lia.
Defined.

(** ** Further properties of [build_service_call] and [parse_command] *)

Lemma parse_command_ok_inv (rt : python_runtime) (line entity_id action : text)
    (brightness : option Z) :
  parse_command rt line = Ok (entity_id, action, brightness) →
  ∃ p0 p1 more,
    tokens rt line = p0 :: p1 :: more
    ∧ entity_id = lower rt p0 ∧ action = lower rt p1
    ∧ (action = txt "on" ∨ action = txt "off")
    ∧ (∀ n, brightness = Some n →
            action = txt "on" ∧ more ≠ [] ∧ (0 ≤ n ≤ 255)%Z)
    ∧ (more = [] → brightness = None).
Proof.
  intros Hok.
  destruct (parse_command_cases rt line)
    as [[_ [msg Hm]]|(p0 & p1 & more & Ht & Hc)]; [congruence|].
  exists p0, p1, more. split; [done|].
  destruct Hc as [(_&_&Hm)|[[Hoff Hr]|[(Hon&Hnil&Hr)|(Hon & p2 & more' & -> & Hb)]]];
    [congruence| | |].
  - rewrite Hr in Hok. simplify_eq. rewrite Hoff. split_and!; auto; done.
  - rewrite Hr in Hok. simplify_eq. rewrite Hon. split_and!; auto; done.
  - cbv zeta in Hb. rewrite Hon.
    assert (Hres : ∃ n, (0 ≤ n ≤ 255)%Z
              ∧ parse_command rt line = Ok (lower rt p0, txt "on", Some n)).
    { destruct Hb as [[_ Hb]|[_ Hb]];
        destruct Hb as [[_ Hm]|(v & _ & [[_ Hm]|[Hrange Hr]])]; try congruence.
      - eexists. split; [|exact Hr]. by apply scale_range.
      - by exists v. }
    destruct Hres as (n & Hrange & Hr). rewrite Hr in Hok. simplify_eq.
    split; [done|]. split; [done|]. split; [auto|]. split; [|done].
    intros n' [= <-]. done.
Qed.

(** X9. For an entity reference with a [.], every action other than exactly
    [on], whether [off] or anything else, gives service [turn_off] and a
    payload that holds the [entity_id] alone: a brightness that comes with
    it is left out, whatever the domain. *)
Theorem build_service_call_not_on (entity_id action : text)
    (brightness : option Z) :
  46%N ∈ entity_id →
  action ≠ txt "on" →
  ∃ svc_domain,
    build_service_call entity_id action brightness
    = ([Log INFO (LogJson svc_domain (txt "turn_off")
                    {[ "entity_id" := PyStr entity_id ]})],
       Val (svc_domain, txt "turn_off", {[ "entity_id" := PyStr entity_id ]})).
Proof.
  intros Hin Ha.
  destruct (build_service_call_ok entity_id action brightness Hin)
    as (sd & sv & data & Hbuild & _ & Hsv & Hid & Hbri & Hkeys).
  rewrite bool_decide_eq_false_2 in Hsv by done. subst sv.
  assert (data = {[ "entity_id" := PyStr entity_id ]}) as ->.
  { apply map_eq. intros k. destruct (decide (k = "entity_id")) as [->|Hk].
    - by rewrite Hid, lookup_singleton_eq.
    - rewrite lookup_singleton_ne by done.
      destruct (data !! k) as [v|] eqn:Hv; [|done].
      destruct (Hkeys k ltac:(eauto)) as [?| ->]; [done|].
      apply Hbri in Hv as (_ & ? & _). done. }
  by exists sd.
Qed.

Lemma build_service_call_not_on_witness :
  ∃ svc_domain,
    build_service_call (txt "light.bulb1") (txt "toggle") (Some 40%Z)
    = ([Log INFO (LogJson svc_domain (txt "turn_off")
                    {[ "entity_id" := PyStr (txt "light.bulb1") ]})],
       Val (svc_domain, txt "turn_off",
            {[ "entity_id" := PyStr (txt "light.bulb1") ]})).
Proof.
  apply (build_service_call_not_on (txt "light.bulb1") (txt "toggle") (Some 40%Z)).
  - apply (bool_decide_unpack _). vm_compute. exact I.
  - discriminate.
Defined.

(** X10. Parsing followed by mapping: whenever the payload built from a
    parsed line holds a [brightness], it is an integer from 0 to 255, the
    service is [light.turn_on], and the line had a third token after
    [on]. *)
Theorem parsed_payload_brightness (rt : python_runtime) (line entity_id action : text)
    (brightness : option Z) (tr : list event) (svc_domain service : text)
    (data : gmap string pyval) (v : pyval) :
  parse_command rt line = Ok (entity_id, action, brightness) →
  build_service_call entity_id action brightness
  = (tr, Val (svc_domain, service, data)) →
  data !! "brightness" = Some v →
  ∃ n, v = PyInt n ∧ brightness = Some n ∧ (0 ≤ n ≤ 255)%Z
       ∧ svc_domain = txt "light" ∧ service = txt "turn_on"
       ∧ (3 ≤ length (tokens rt line))%nat.
Proof.
  intros Hparse Hbuild Hv.
  destruct (decide (46%N ∈ entity_id)) as [Hin|Hno];
    [|by rewrite build_service_call_raises in Hbuild].
  destruct (build_service_call_ok entity_id action brightness Hin)
    as (sd & sv & data' & Hbuild' & Hsd & Hsv & _ & Hbri & _).
  rewrite Hbuild' in Hbuild. simplify_eq.
  apply Hbri in Hv as (Hl & Ha & n & -> & ->).
  destruct (parse_command_ok_inv rt _ _ _ _ Hparse)
    as (p0 & p1 & more & Ht & _ & _ & _ & Hn & _).
  destruct (Hn n eq_refl) as (_ & Hmore & Hrange).
  exists n. split; [done|]. split; [done|]. split; [done|].
  split; [by rewrite bool_decide_eq_true_2|].
  split; [by rewrite bool_decide_eq_true_2|].
  rewrite Ht. destruct more; [done|simpl; lia].
Qed.

Lemma parsed_payload_brightness_witness :
  ∃ n, PyInt 26 = PyInt n ∧ Some 26%Z = Some n ∧ (0 ≤ n ≤ 255)%Z
       ∧ txt "light" = txt "light" ∧ txt "turn_on" = txt "turn_on"
       ∧ (3 ≤ length (tokens ascii_runtime (txt "Light.Bulb1 on 10%")))%nat.
Proof.
  apply (parsed_payload_brightness ascii_runtime (txt "Light.Bulb1 on 10%")
           (txt "light.bulb1") (txt "on") (Some 26%Z)
           [Log INFO (LogJson (txt "light") (txt "turn_on")
                        (<["brightness" := PyInt 26]>
                           {[ "entity_id" := PyStr (txt "light.bulb1") ]}))]
           (txt "light") (txt "turn_on")
           (<["brightness" := PyInt 26]>
              {[ "entity_id" := PyStr (txt "light.bulb1") ]})
           (PyInt 26)); vm_compute; reflexivity.
Defined.

(** X11. Every command that [parse_command] returns has action [on] or
    [off]; it has a brightness only when the action is [on] and the line has
    a third token, and that brightness is from 0 to 255; a line of exactly
    two tokens gives no brightness. *)
Theorem parse_command_result_invariant (rt : python_runtime)
    (line entity_id action : text) (brightness : option Z) :
  parse_command rt line = Ok (entity_id, action, brightness) →
  (2 ≤ length (tokens rt line))%nat
  ∧ (action = txt "on" ∨ action = txt "off")
  ∧ (∀ n, brightness = Some n →
          action = txt "on" ∧ (3 ≤ length (tokens rt line))%nat
          ∧ (0 ≤ n ≤ 255)%Z)
  ∧ (length (tokens rt line) = 2%nat → brightness = None).
Proof.
  intros Hok.
  destruct (parse_command_ok_inv rt _ _ _ _ Hok)
    as (p0 & p1 & more & Ht & _ & _ & Ha & Hn & Hnil).
  rewrite Ht. simpl. split; [lia|]. split; [done|]. split.
  - intros n Hb. destruct (Hn n Hb) as (? & Hmore & ?).
    split; [done|]. split; [|done]. destruct more; [done|simpl; lia].
  - intros Hlen. apply Hnil. by destruct more.
Qed.

Lemma parse_command_result_invariant_witness :
  (2 ≤ length (tokens ascii_runtime (txt "light.bulb1 ON 255 please")))%nat
  ∧ (txt "on" = txt "on" ∨ txt "on" = txt "off")
  ∧ (∀ n, Some 255%Z = Some n →
          txt "on" = txt "on"
          ∧ (3 ≤ length (tokens ascii_runtime (txt "light.bulb1 ON 255 please")))%nat
          ∧ (0 ≤ n ≤ 255)%Z)
  ∧ (length (tokens ascii_runtime (txt "light.bulb1 ON 255 please")) = 2%nat →
     Some 255%Z = None).
Proof.
  apply (parse_command_result_invariant ascii_runtime
           (txt "light.bulb1 ON 255 please") (txt "light.bulb1") (txt "on")
           (Some 255%Z)).
  vm_compute. reflexivity.
Defined.

(** X12. The message of the [ValueError] that [parse_command] raises names
    the cause: [Empty command] exactly for the empty line; [Expected: ...]
    exactly for a line that is not empty and has fewer than two tokens;
    [Action must be ON or OFF] exactly when the second token lower-cased is
    neither [on] nor [off]; and, for a third token after [on], one of four
    messages according to whether the token ends with [%], whether [int]
    accepts it, and whether the integer is in range. *)
Theorem parse_command_messages (rt : python_runtime) (line : text) :
  (parse_command rt line = Raised (ValueError "Empty command") ↔ line = [])
  ∧ (parse_command rt line
     = Raised (ValueError "Expected: <entity_id> <on|off> [brightness]")
     ↔ line ≠ [] ∧ (length (tokens rt line) < 2)%nat)
  ∧ (parse_command rt line = Raised (ValueError "Action must be ON or OFF")
     ↔ ∃ p0 p1 more, tokens rt line = p0 :: p1 :: more
         ∧ lower rt p1 ≠ txt "on" ∧ lower rt p1 ≠ txt "off")
  ∧ (parse_command rt line
     = Raised (ValueError "Brightness percentage must be an integer 0..100%")
     ↔ ∃ p0 p1 p2 more, tokens rt line = p0 :: p1 :: p2 :: more
         ∧ lower rt p1 = txt "on"
         ∧ endswith (lower rt (strip rt p2)) 37 = true
         ∧ py_int rt (drop_last (lower rt (strip rt p2))) = None)
  ∧ (parse_command rt line
     = Raised (ValueError "Brightness percentage out of range 0..100%")
     ↔ ∃ p0 p1 p2 more pct, tokens rt line = p0 :: p1 :: p2 :: more
         ∧ lower rt p1 = txt "on"
         ∧ endswith (lower rt (strip rt p2)) 37 = true
         ∧ py_int rt (drop_last (lower rt (strip rt p2))) = Some pct
         ∧ ¬ (0 ≤ pct ≤ 100)%Z)
  ∧ (parse_command rt line
     = Raised (ValueError "Brightness must be an integer 0..255 or '0..100%'")
     ↔ ∃ p0 p1 p2 more, tokens rt line = p0 :: p1 :: p2 :: more
         ∧ lower rt p1 = txt "on"
         ∧ endswith (lower rt (strip rt p2)) 37 = false
         ∧ py_int rt (lower rt (strip rt p2)) = None)
  ∧ (parse_command rt line = Raised (ValueError "Brightness out of range 0..255")
     ↔ ∃ p0 p1 p2 more bri, tokens rt line = p0 :: p1 :: p2 :: more
         ∧ lower rt p1 = txt "on"
         ∧ endswith (lower rt (strip rt p2)) 37 = false
         ∧ py_int rt (lower rt (strip rt p2)) = Some bri
         ∧ ¬ (0 ≤ bri ≤ 255)%Z).
Proof.
  assert (Hon_off : txt "on" ≠ txt "off") by discriminate.
  destruct (parse_command_cases rt line)
    as [[Hlen _]|(p0 & p1 & more & Ht & Hc)].
  { assert (Hshort : ∀ q0 q1 more0, tokens rt line ≠ q0 :: q1 :: more0).
    { intros ??? Ht. rewrite Ht in Hlen. simpl in Hlen. lia. }
    destruct (decide (line = [])) as [->|Hne].
    - change (parse_command rt []) with
        (Raised (ValueError "Empty command") : result command).
      split_and!; (split; [try done|]).
      all: first [ done | by intros [??]
                 | intros (?&?&?& Ht & _); by destruct (Hshort _ _ _ Ht)
                 | intros (?&?&?&?& Ht & _); by destruct (Hshort _ _ _ Ht)
                 | intros (?&?&?&?&?& Ht & _); by destruct (Hshort _ _ _ Ht) ].
    - rewrite parse_command_few_nonempty by done.
      split_and!; (split; [try done|]).
      all: first [ done | by intros [??]
                 | intros (?&?&?& Ht & _); by destruct (Hshort _ _ _ Ht)
                 | intros (?&?&?&?& Ht & _); by destruct (Hshort _ _ _ Ht)
                 | intros (?&?&?&?&?& Ht & _); by destruct (Hshort _ _ _ Ht) ]. }
  assert (Hne : line ≠ []) by (intros ->; discriminate Ht).
  assert (Hlen : ¬ (length (tokens rt line) < 2)%nat) by (rewrite Ht; simpl; lia).
  destruct Hc as
    [(Hno1 & Hno2 & Hr)|[[Hoff Hr]|[(Hon & -> & Hr)|(Hon & p2 & more' & -> & Hb)]]].
  1-3: rewrite Hr; split_and!; (split; [try done|]);
       first [ done | intros _; by eauto 10 | by intros [??]
             | intros (?&?&?& Ht' & ? & ?); rewrite Ht in Ht'; simplify_eq; congruence
             | intros (?&?&?&?& Ht' & ? & _); rewrite Ht in Ht'; simplify_eq; congruence
             | intros (?&?&?&?&?& Ht' & ? & _); rewrite Ht in Ht'; simplify_eq; congruence ].
  cbv zeta in Hb.
  destruct Hb as [[Hend Hb]|[Hend Hb]];
    destruct Hb as [[Hint Hr]|(n & Hint & [[Hrange Hr]|[Hrange Hr]])];
    rewrite Hr; split_and!; (split; [try done|]);
    first [ done | intros _; by eauto 10 | by intros [??]
          | intros (?&?&?& Ht' & ? & ?); rewrite Ht in Ht'; simplify_eq; congruence
          | intros (?&?&?&?& Ht' & _ & He & Hi); rewrite Ht in Ht'; simplify_eq;
            congruence
          | intros (?&?&?&?&?& Ht' & _ & He & Hi & Hra); rewrite Ht in Ht';
            simplify_eq; first [congruence | done] ].
Qed.

Lemma parse_command_messages_witness :
  parse_command ascii_runtime (txt "   ")
  = Raised (ValueError "Expected: <entity_id> <on|off> [brightness]").
Proof.
  apply (proj2 (proj1 (proj2 (parse_command_messages ascii_runtime (txt "   "))))).
  split; [discriminate|]. vm_compute. lia.
Defined.

(** X13. The scaling of a percentage, [round(pct * 255 / 100)], grows with
    the percentage: from 0 at 0% to 255 at 100%, and by at least 2 and at most
    3 for every step of one percent, so that two different percentages never
    give the same brightness. *)
Theorem percentage_scaling_monotone (p q bp bq : Z) :
  (0 ≤ p)%Z → (p < q)%Z → (q ≤ 100)%Z →
  py_round (true_div (p * 255) 100) = Ok bp →
  py_round (true_div (q * 255) 100) = Ok bq →
  (2 * (q - p) ≤ bq - bp ≤ 3 * (q - p))%Z
  ∧ (p = 0 → bp = 0)%Z
  ∧ (q = 100 → bq = 255)%Z.
Proof.
  intros Hp Hpq Hq Hbp Hbq.
  rewrite scale_exact in Hbp, Hbq by lia. simplify_eq.
  destruct (round_half_even_nearest (p * 255) 100 ltac:(lia)) as [Hnp _].
  destruct (round_half_even_nearest (q * 255) 100 ltac:(lia)) as [Hnq _].
  split; [lia|]. split; intros ->; reflexivity.
Qed.

Lemma percentage_scaling_monotone_witness :
  (2 * (50 - 49) ≤ 128 - 125 ≤ 3 * (50 - 49))%Z
  ∧ (49 = 0 → 125 = 0)%Z
  ∧ (50 = 100 → 128 = 255)%Z.
Proof.
  apply (percentage_scaling_monotone 49 50 125 128); first [lia | reflexivity].
Defined.

(** ** Properties of [int] as [parse_command] uses it *)

Lemma scan_digits_all (ds : text) (ndig : nat) (acc : Z) :
  Forall is_digit ds →
  scan_digits false ndig acc ds
  = Some ((ndig + length ds)%nat, decimal_value acc ds, []).
Proof.
  intros Hds. revert ndig acc.
  induction Hds as [|c ds Hc _ IH]; intros ndig acc; simpl.
  - do 2 f_equal. f_equal. lia.
  - unfold is_digit in Hc. unfold digit_value.
    destruct (N.eqb_spec c 95); [lia|].
    destruct (N.leb_spec 48 c); [|lia]. destruct (N.leb_spec c 57); [|lia].
    simpl. rewrite IH. do 2 f_equal. f_equal. lia.
Qed.

Lemma to_ascii_decimal_ascii (rt : python_runtime) (s : text) :
  Forall (λ c, (c < 127)%N) s → to_ascii_decimal rt <$> s = s.
Proof.
  induction 1 as [|c s Hc _ IH]; [done|]. rewrite fmap_cons, IH.
  unfold to_ascii_decimal. by destruct (N.ltb_spec c 127); [|lia].
Qed.

Lemma py_int_digits (rt : python_runtime) (ds : text) :
  ds ≠ [] → Forall is_digit ds → (length ds ≤ 640)%nat →
  py_int rt ds = Some (decimal_value 0 ds).
Proof.
  intros Hne Hds Hlen. unfold py_int.
  rewrite to_ascii_decimal_ascii
    by (eapply Forall_impl; [exact Hds|]; unfold is_digit; simpl; lia).
  destruct ds as [|c ds]; [done|].
  pose proof (Forall_inv Hds) as Hc. unfold is_digit in Hc.
  cbn [skip_c_space]. unfold is_c_space.
  destruct (N.leb_spec 9 c), (N.leb_spec c 13), (N.eqb_spec c 32); try lia.
  cbn [andb orb].
  destruct (N.eqb_spec c 43), (N.eqb_spec c 45), (N.eqb_spec c 95); try lia.
  rewrite scan_digits_all by done.
  rewrite bool_decide_eq_false_2 by (simpl; lia).
  unfold within_digit_limit. simpl length in *.
  destruct (Nat.leb_spec (0 + S (length ds)) 640); [|lia]. done.
Qed.

Lemma py_int_signed_digits (rt : python_runtime) (sign : N) (ds : text) :
  sign = 43%N ∨ sign = 45%N →
  ds ≠ [] → Forall is_digit ds → (length ds ≤ 640)%nat →
  py_int rt (sign :: ds)
  = Some (if (sign =? 45)%N then (- decimal_value 0 ds)%Z else decimal_value 0 ds).
Proof.
  intros Hsign Hne Hds Hlen. unfold py_int.
  rewrite to_ascii_decimal_ascii.
  2:{ constructor; [lia|]. eapply Forall_impl; [exact Hds|].
      unfold is_digit; simpl; lia. }
  destruct ds as [|c ds]; [done|].
  pose proof (Forall_inv Hds) as Hc. unfold is_digit in Hc.
  assert (Hscan : scan_digits false 0 0 (c :: ds)
                  = Some ((0 + length (c :: ds))%nat, decimal_value 0 (c :: ds), []))
    by by apply scan_digits_all.
  assert (Hlim : within_digit_limit rt (0 + length (c :: ds)) = true).
  { unfold within_digit_limit.
    destruct (Nat.leb_spec (0 + length (c :: ds)) 640); [done|lia]. }
  destruct Hsign as [-> | ->].
  - change (skip_c_space (43%N :: c :: ds)) with (43%N :: c :: ds).
    cbv beta iota zeta. change (43 =? 43)%N with true. cbv beta iota.
    destruct (N.eqb_spec c 95); [lia|].
    rewrite Hscan, Hlim. rewrite bool_decide_eq_false_2 by (simpl; lia). done.
  - change (skip_c_space (45%N :: c :: ds)) with (45%N :: c :: ds).
    cbv beta iota zeta. change (45 =? 43)%N with false.
    change (45 =? 45)%N with true. cbv beta iota.
    destruct (N.eqb_spec c 95); [lia|].
    rewrite Hscan, Hlim. rewrite bool_decide_eq_false_2 by (simpl; lia). done.
Qed.

(** X14. [int] reads a plain decimal literal as its value: a string of at
    most 640 ASCII digits, with leading zeros or not, gives the number the
    digits spell, never a negative one; with [+] in front the same number,
    with [-] in front its negation. *)
Theorem py_int_decimal_literal (rt : python_runtime) (ds : text) :
  ds ≠ [] → Forall is_digit ds → (length ds < 640)%nat →
  py_int rt ds = Some (decimal_value 0 ds)
  ∧ py_int rt (43%N :: ds) = Some (decimal_value 0 ds)
  ∧ py_int rt (45%N :: ds) = Some (- decimal_value 0 ds)%Z
  ∧ py_int rt (48%N :: ds) = Some (decimal_value 0 ds)
  ∧ (0 ≤ decimal_value 0 ds)%Z.
Proof.
  intros Hne Hds Hlen. split_and!.
  - apply py_int_digits; [done..|lia].
  - by rewrite (py_int_signed_digits rt 43 ds) by (auto; lia).
  - by rewrite (py_int_signed_digits rt 45 ds) by (auto; lia).
  - rewrite py_int_digits; [done|done| |simpl; lia].
    constructor; [unfold is_digit; lia|done].
  - assert (Hacc : ∀ acc, (0 ≤ acc)%Z → (0 ≤ decimal_value acc ds)%Z).
    { clear Hne Hlen. induction Hds as [|c ds Hc _ IH]; intros acc Hacc; [done|].
      simpl. apply IH. unfold is_digit in Hc. lia. }
    by apply Hacc.
Qed.

Lemma py_int_decimal_literal_witness :
  py_int ascii_runtime (txt "007") = Some 7%Z.
Proof.
  apply (py_int_decimal_literal ascii_runtime (txt "007")).
  - discriminate.
  - change (txt "007") with [48%N; 48%N; 55%N].
    repeat (apply List.Forall_cons; [unfold is_digit; lia|]). apply List.Forall_nil.
  - vm_compute. lia.
Defined.

Lemma lower_from_fixed (rt : python_runtime) (whole s : text) (i : nat) :
  Forall (λ c, (c < 65)%N ∨ (90 < c < 128)%N) s → lower_from rt whole i s = s.
Proof.
  intros Hs. revert i. induction Hs as [|c s Hc _ IH]; intros i; [done|].
  simpl. rewrite IH. unfold ascii_lower.
  destruct (N.ltb_spec c 128); [|lia].
  destruct (N.leb_spec 65 c), (N.leb_spec c 90); simpl; (done || lia).
Qed.

(** [lower] leaves ASCII text without capital letters as it is. *)
Lemma lower_fixed (rt : python_runtime) (s : text) :
  Forall (λ c, (c < 65)%N ∨ (90 < c < 128)%N) s → lower rt s = s.
Proof. apply lower_from_fixed. Qed.

Lemma digits_token (rt : python_runtime) (ds : text) :
  Forall is_digit ds →
  lower rt (strip rt ds) = ds
  ∧ lower rt (strip rt (ds ++ [37%N])) = ds ++ [37%N].
Proof.
  intros Hds.
  assert (Hns : Forall (λ c, is_space rt c = false) (ds ++ [37%N])).
  { apply Forall_app. split; [|by repeat constructor].
    eapply Forall_impl; [exact Hds|]. intros c Hc. unfold is_digit in Hc.
    unfold is_space. destruct (N.ltb_spec c 128); [|lia].
    destruct (N.leb_spec 9 c), (N.leb_spec c 13), (N.leb_spec 28 c),
      (N.leb_spec c 32); simpl; (done || lia). }
  assert (Hlow : Forall (λ c, (c < 65)%N ∨ (90 < c < 128)%N) (ds ++ [37%N])).
  { apply Forall_app. split; [|repeat constructor; lia].
    eapply Forall_impl; [exact Hds|]. unfold is_digit. simpl. lia. }
  split.
  - apply Forall_app in Hns as [Hns _]. apply Forall_app in Hlow as [Hlow _].
    by rewrite strip_nospace, lower_fixed.
  - by rewrite strip_nospace, lower_fixed.
Qed.

Lemma py_int_digits_limit (rt : python_runtime) (ds : text) :
  ds ≠ [] → Forall is_digit ds →
  py_int rt ds
  = if within_digit_limit rt (length ds) then Some (decimal_value 0 ds) else None.
Proof.
  intros Hne Hds. unfold py_int.
  rewrite to_ascii_decimal_ascii
    by (eapply Forall_impl; [exact Hds|]; unfold is_digit; simpl; lia).
  destruct ds as [|c ds]; [done|].
  pose proof (Forall_inv Hds) as Hc. unfold is_digit in Hc.
  cbn [skip_c_space]. unfold is_c_space.
  destruct (N.leb_spec 9 c), (N.leb_spec c 13), (N.eqb_spec c 32); try lia.
  cbn [andb orb].
  destruct (N.eqb_spec c 43), (N.eqb_spec c 45), (N.eqb_spec c 95); try lia.
  rewrite scan_digits_all by done.
  rewrite bool_decide_eq_false_2 by (simpl; lia).
  change (0 + length (c :: ds))%nat with (length (c :: ds)).
  by destruct (within_digit_limit rt (length (c :: ds))).
Qed.

(** X15. A third token of ASCII digits after [on], as long as the number of
    its digits is within the limit [int] puts on a literal (it always is up
    to 640 digits), is taken as the number it spells: the brightness when
    that is at most 255, the error [Brightness out of range 0..255]
    otherwise. Digits followed by [%] are a percentage in the same way:
    scaled when at most 100, the error
    [Brightness percentage out of range 0..100%] otherwise. Beyond the limit
    on the digits the token is refused as no integer, whatever number it
    spells. *)
Theorem digit_brightness_token (rt : python_runtime) (line p0 p1 p2 ds : text)
    (more : list text) :
  tokens rt line = p0 :: p1 :: p2 :: more →
  lower rt p1 = txt "on" →
  ds ≠ [] → Forall is_digit ds →
  (p2 = ds →
   parse_command rt line
   = if within_digit_limit rt (length ds)
     then if (decimal_value 0 ds <=? 255)%Z
          then Ok (lower rt p0, txt "on", Some (decimal_value 0 ds))
          else Raised (ValueError "Brightness out of range 0..255")
     else Raised (ValueError "Brightness must be an integer 0..255 or '0..100%'"))
  ∧ (p2 = ds ++ [37%N] →
     parse_command rt line
     = if within_digit_limit rt (length ds)
       then if (decimal_value 0 ds <=? 100)%Z
            then Ok (lower rt p0, txt "on",
                     Some (round_half_even (decimal_value 0 ds * 255) 100))
            else Raised (ValueError "Brightness percentage out of range 0..100%")
       else Raised (ValueError "Brightness percentage must be an integer 0..100%"))
  ∧ ((length ds ≤ 640)%nat → within_digit_limit rt (length ds) = true)
  ∧ (within_digit_limit rt (length ds) = false ↔
     (640 < length ds)%nat ∧ int_max_str_digits rt ≠ 0%nat
     ∧ (int_max_str_digits rt < length ds)%nat).
Proof.
  intros Ht Hon Hne Hds.
  destruct (digits_token rt ds Hds) as [Htok Htokp].
  pose proof (py_int_digits_limit rt ds Hne Hds) as Hint.
  assert (Hpos : (0 ≤ decimal_value 0 ds)%Z).
  { assert (Hacc : ∀ acc, (0 ≤ acc)%Z → (0 ≤ decimal_value acc ds)%Z).
    { clear -Hds. induction Hds as [|c ds Hc _ IH]; intros acc Hacc; [done|].
      simpl. apply IH. unfold is_digit in Hc. lia. }
    by apply Hacc. }
  assert (Hlast : endswith ds 37 = false).
  { unfold endswith. destruct (last ds) as [d|] eqn:Hl; [|done].
    apply last_Some in Hl as [ds' ->]. apply Forall_app in Hds as [_ Hd].
    apply Forall_inv in Hd. unfold is_digit in Hd.
    apply bool_decide_eq_false_2. lia. }
  assert (Hlastp : endswith (ds ++ [37%N]) 37 = true).
  { unfold endswith. by rewrite last_snoc. }
  assert (Hdrop : drop_last (ds ++ [37%N]) = ds).
  { unfold drop_last. rewrite length_app. simpl.
    rewrite take_app_length'; [done|lia]. }
  assert (Hlimit : within_digit_limit rt (length ds) = false ↔
            (640 < length ds)%nat ∧ int_max_str_digits rt ≠ 0%nat
            ∧ (int_max_str_digits rt < length ds)%nat).
  { unfold within_digit_limit.
    destruct (Nat.leb_spec (length ds) 640),
      (Nat.eqb_spec (int_max_str_digits rt) 0),
      (Nat.leb_spec (length ds) (int_max_str_digits rt)); simpl;
      (split; [try done; intros _; lia|try done; lia]). }
  assert (Hshort : (length ds ≤ 640)%nat → within_digit_limit rt (length ds) = true).
  { intros Hlen. apply not_false_iff_true. intros Hw.
    apply Hlimit in Hw. lia. }
  destruct (parse_command_cases rt line)
    as [[Hfew _]|(q0 & q1 & more0 & Ht' & Hc)].
  { rewrite Ht in Hfew. simpl in Hfew. lia. }
  rewrite Ht in Ht'. simplify_eq.
  destruct Hc as [(Hno & _)|[(Hoff & _)|[(_ & Hnil & _)|(_ & q2 & more' & Hm & Hb)]]];
    [congruence|rewrite Hon in Hoff; discriminate|discriminate|].
  simplify_eq. cbv zeta in Hb.
  split; [|split; [|by split]]; intros ->.
  - rewrite Htok, Hlast, Hint in Hb.
    destruct Hb as [[? _]|[_ Hb]]; [done|].
    destruct (within_digit_limit rt (length ds)).
    + destruct Hb as [[? _]|(bri & [= <-] & Hb)]; [done|].
      destruct (Z.leb_spec (decimal_value 0 ds) 255);
        destruct Hb as [[Hr ?]|[Hr ?]]; (done || lia).
    + by destruct Hb as [[_ ?]|(bri & ? & _)].
  - rewrite Htokp, Hlastp, Hdrop, Hint in Hb.
    destruct Hb as [[_ Hb]|[? _]]; [|done].
    destruct (within_digit_limit rt (length ds)).
    + destruct Hb as [[? _]|(pct & [= <-] & Hb)]; [done|].
      destruct (Z.leb_spec (decimal_value 0 ds) 100);
        destruct Hb as [[Hr ?]|[Hr ?]]; (done || lia).
    + by destruct Hb as [[_ ?]|(pct & ? & _)].
Qed.

Lemma digit_brightness_token_witness :
  parse_command ascii_runtime (txt "light.bulb1 on 256")
  = Raised (ValueError "Brightness out of range 0..255").
Proof.
  apply (proj1 (digit_brightness_token ascii_runtime (txt "light.bulb1 on 256")
                  (txt "light.bulb1") (txt "on") (txt "256") (txt "256") []
                  eq_refl eq_refl ltac:(discriminate)
                  ltac:(change (txt "256") with [50%N; 53%N; 54%N];
                        repeat (apply List.Forall_cons; [unfold is_digit; lia|]);
                        apply List.Forall_nil))).
  reflexivity.
Defined.

Lemma skip_c_space_decompose (s : text) :
  ∃ sp, s = sp ++ skip_c_space s ∧ Forall (λ c, is_c_space c = true) sp.
Proof.
  induction s as [|c s (sp & Hs & Hsp)]; [by exists []|]. simpl.
  destruct (is_c_space c) eqn:Hc; [|by exists []].
  exists (c :: sp). split; [by rewrite Hs at 1|by constructor].
Qed.

Lemma skip_c_space_nil (s : text) :
  skip_c_space s = [] → Forall (λ c, is_c_space c = true) s.
Proof.
  intros Hs. destruct (skip_c_space_decompose s) as (sp & Heq & Hsp).
  rewrite Hs, app_nil_r in Heq. by subst.
Qed.

Lemma scan_digits_consumed (s : text) (prev_us : bool) (ndig ndig' : nat)
    (acc v : Z) (rest : text) :
  scan_digits prev_us ndig acc s = Some (ndig', v, rest) →
  ∃ consumed, s = consumed ++ rest
    ∧ Forall (λ c, is_digit c ∨ c = 95%N) consumed.
Proof.
  revert prev_us ndig acc.
  induction s as [|c s IH]; intros prev_us ndig acc; simpl.
  - destruct prev_us; [done|]. intros [= <- <- <-]. by exists [].
  - destruct (N.eqb_spec c 95) as [->|Hc].
    + destruct prev_us; [done|]. intros (consumed & -> & Hcons)%IH.
      exists (95%N :: consumed). split; [done|]. constructor; auto.
    + unfold digit_value.
      destruct (N.leb_spec 48 c), (N.leb_spec c 57); simpl.
      1:{ intros (consumed & -> & Hcons)%IH.
          exists (c :: consumed). split; [done|].
          constructor; [left; unfold is_digit; lia|done]. }
      all: destruct prev_us; [done|]; intros [= <- <- <-]; by exists [].
Qed.

(** X16. [int] accepts no ASCII character besides digits, [_], a sign and
    the white space of C: a string that holds a letter, a [.], a [%] or the
    like, such as [0x10], [1e2], [12.5] or [high], is refused. *)
Theorem py_int_ascii_alphabet (rt : python_runtime) (s : text) (v : Z) (c : N) :
  py_int rt s = Some v →
  c ∈ s → (c < 127)%N →
  is_digit c ∨ c = 95%N ∨ c = 43%N ∨ c = 45%N ∨ is_c_space c = true.
Proof.
  intros Hint Hin Hc.
  assert (Hmapped : to_ascii_decimal rt c ∈ to_ascii_decimal rt <$> s)
    by by apply list_elem_of_fmap_2.
  assert (Hsame : to_ascii_decimal rt c = c).
  { unfold to_ascii_decimal. by destruct (N.ltb_spec c 127); [|lia]. }
  rewrite Hsame in Hmapped. clear Hsame Hin.
  unfold py_int in Hint.
  destruct (skip_c_space_decompose (to_ascii_decimal rt <$> s)) as (sp & Heq & Hsp).
  rewrite Heq in Hmapped.
  set (s1 := skip_c_space (to_ascii_decimal rt <$> s)) in *. clearbody s1.
  apply elem_of_app in Hmapped as [Hin|Hin].
  { rewrite Forall_forall in Hsp. auto 10. }
  assert (Hbody : ∀ s2,
    match s2 with
    | d :: _ =>
        if (d =? 95)%N then None
        else match scan_digits false 0 0 s2 with
             | Some (ndig, v0, rest) =>
                 if bool_decide (ndig = 0%nat) then None
                 else if negb (within_digit_limit rt ndig) then None
                 else match skip_c_space rest with
                      | [] => Some v0
                      | _ => None
                      end
             | None => None
             end
    | [] => None
    end = Some v ∨
    match s2 with
    | d :: _ =>
        if (d =? 95)%N then None
        else match scan_digits false 0 0 s2 with
             | Some (ndig, v0, rest) =>
                 if bool_decide (ndig = 0%nat) then None
                 else if negb (within_digit_limit rt ndig) then None
                 else match skip_c_space rest with
                      | [] => Some (- v0)%Z
                      | _ => None
                      end
             | None => None
             end
    | [] => None
    end = Some v →
    c ∈ s2 → is_digit c ∨ c = 95%N ∨ is_c_space c = true).
  { intros s2 Hs2 Hin2.
    assert (∃ ndig v0 rest, scan_digits false 0 0 s2 = Some (ndig, v0, rest)
              ∧ skip_c_space rest = []) as (ndig & v0 & rest & Hscan & Hrest).
    { destruct s2 as [|d s2']; [by destruct Hs2|].
      destruct (d =? 95)%N; [by destruct Hs2|].
      destruct (scan_digits false 0 0 (d :: s2')) as [[[ndig v0] rest]|];
        [|by destruct Hs2].
      destruct (bool_decide (ndig = 0%nat)); [by destruct Hs2|].
      destruct (negb (within_digit_limit rt ndig)); [by destruct Hs2|].
      destruct (skip_c_space rest) eqn:Hrest; [|by destruct Hs2].
      eauto 10. }
    apply scan_digits_consumed in Hscan as (consumed & -> & Hcons).
    apply skip_c_space_nil in Hrest.
    rewrite Forall_forall in Hcons, Hrest.
    apply elem_of_app in Hin2 as [Hin2|Hin2]; [|auto].
    destruct (Hcons _ Hin2); auto. }
  destruct s1 as [|d s1']; [by apply elem_of_nil in Hin|].
  destruct (N.eqb_spec d 43) as [->|Hd43].
  { apply elem_of_cons in Hin as [->|Hin]; [auto|].
    destruct (Hbody s1' (or_introl Hint) Hin) as [?|[?|?]]; auto. }
  destruct (N.eqb_spec d 45) as [->|Hd45].
  { apply elem_of_cons in Hin as [->|Hin]; [auto 10|].
    destruct (Hbody s1' (or_intror Hint) Hin) as [?|[?|?]]; auto 10. }
  destruct (Hbody (d :: s1') (or_introl Hint) Hin) as [?|[?|?]]; auto 10.
Qed.

Lemma py_int_ascii_alphabet_witness :
  is_digit 49 ∨ 49%N = 95%N ∨ 49%N = 43%N ∨ 49%N = 45%N ∨ is_c_space 49 = true.
Proof.
  apply (py_int_ascii_alphabet ascii_runtime (txt "+1_0") 10%Z 49%N).
  - reflexivity.
  - apply (bool_decide_unpack _). vm_compute. exact I.
  - lia.
Defined.

(** [re.split] always gives at least one piece. *)
Lemma re_split_ws_nonempty (rt : python_runtime) (s : text) :
  re_split_ws rt s ≠ [].
Proof.
  unfold re_split_ws. generalize (@nil N) false.
  induction s as [|c s IH]; intros cur in_sep; simpl; [done|].
  destruct (is_space rt c); [|apply IH]. destruct in_sep; [apply IH|done].
Qed.

(** X17. What [parse_command] splits: [re.split] on the stripped line gives
    the single empty piece exactly for a line of white space only, and
    otherwise the tokens of the line, none of them empty and none holding
    white space, so that stripping a piece again changes nothing. *)
Theorem split_of_stripped_line (rt : python_runtime) (line : text) :
  (re_split_ws rt (strip rt line) = [[]]
   ∧ tokens rt line = []
   ∧ Forall (λ c, is_space rt c = true) line)
  ∨ (re_split_ws rt (strip rt line) = tokens rt line
     ∧ tokens rt line ≠ []
     ∧ Forall (λ t, t ≠ [] ∧ Forall (λ c, is_space rt c = false) t
                    ∧ strip rt t = t)
              (tokens rt line)).
Proof.
  destruct (decide (strip rt line = [])) as [He|Hne].
  - left. destruct (re_split_ws_strip_empty rt _ He) as [-> ->].
    split_and!; [done..|].
    destruct (strip_decompose rt line) as (l & r & Hl & Hsl & Hsr).
    rewrite He in Hl. rewrite Hl. simpl. by apply Forall_app.
  - right. rewrite re_split_ws_strip by done. split_and!; [done| |].
    + rewrite <- re_split_ws_strip by done. apply re_split_ws_nonempty.
    + eapply Forall_impl; [apply tokens_nospace|].
      intros t [? Ht]. split_and!; [done..|]. by apply strip_nospace.
Qed.

(** ** Further properties of [clean_command] *)

Lemma find_start_cases (raw : list byte) :
  Forall (λ b, is_ascii_letter b = false) raw
  ∨ ∃ header b rest,
      raw = header ++ b :: rest
      ∧ Forall (λ b, is_ascii_letter b = false) header
      ∧ is_ascii_letter b = true.
Proof.
  induction raw as [|x raw IH]; [by left|].
  destruct (is_ascii_letter x) eqn:Hx.
  - right. by exists [], x, raw.
  - destruct IH as [IH|(header & b & rest & -> & Hh & Hb)].
    + left. by constructor.
    + right. exists (x :: header), b, rest. split_and!; [done| |done].
      by constructor.
Qed.

Lemma letter_nonspace (rt : python_runtime) (b : byte) :
  is_ascii_letter b = true →
  (Byte.to_N b < 128)%N ∧ is_space rt (Byte.to_N b) = false.
Proof.
  unfold is_ascii_letter, is_space. cbv zeta.
  set (n := Byte.to_N b). clearbody n. intros Hb.
  destruct (N.leb_spec 65 n), (N.leb_spec n 90), (N.leb_spec 97 n),
    (N.leb_spec n 122); simpl in Hb; try done;
    (split; [lia|]); (destruct (N.ltb_spec n 128); [|lia]);
    destruct (N.leb_spec 9 n), (N.leb_spec n 13), (N.leb_spec 28 n),
      (N.leb_spec n 32); simpl; (done || lia).
Qed.

Lemma clean_command_letter_first (rt : python_runtime) (header : list byte)
    (b : byte) (rest : list byte) :
  Forall (λ b, is_ascii_letter b = false) header →
  is_ascii_letter b = true →
  clean_command rt (header ++ b :: rest)
  = Byte.to_N b :: rstrip rt (decode_utf8_ignore (Byte.to_N <$> rest)).
Proof.
  intros Hh Hb. rewrite clean_command_header by done.
  destruct (letter_nonspace rt b Hb) as [Hlt Hns].
  rewrite fmap_cons. cbn [decode_utf8_ignore].
  destruct (N.ltb_spec (Byte.to_N b) 128); [|lia].
  unfold strip. cbn [lstrip]. rewrite Hns.
  by rewrite rstrip_cons_nonspace.
Qed.

(** X18. [clean_command] returns the empty string exactly for a frame
    without an ASCII letter; for every other frame the result begins with
    the first ASCII letter of the frame. *)
Theorem clean_command_starts_with_letter (rt : python_runtime) (raw : list byte) :
  (clean_command rt raw = [] ↔ Forall (λ b, is_ascii_letter b = false) raw)
  ∧ (∀ c, head (clean_command rt raw) = Some c →
       ∃ header b rest,
         raw = header ++ b :: rest
         ∧ Forall (λ b, is_ascii_letter b = false) header
         ∧ is_ascii_letter b = true
         ∧ c = Byte.to_N b).
Proof.
  destruct (find_start_cases raw) as [Hno|(header & b & rest & -> & Hh & Hb)].
  - assert (Hclean : clean_command rt raw = []).
    { unfold clean_command. by rewrite find_start_none. }
    rewrite Hclean. split; [done|]. by intros c.
  - rewrite clean_command_letter_first by done. split.
    + split; [done|]. intros Hall. apply Forall_app in Hall as [_ Hall].
      apply Forall_inv in Hall. congruence.
    + intros c [= <-]. by exists header, b, rest.
Qed.

Lemma clean_command_starts_with_letter_witness :
  ∃ header b rest,
    example_frame = header ++ b :: rest
    ∧ Forall (λ b, is_ascii_letter b = false) header
    ∧ is_ascii_letter b = true
    ∧ 108%N = Byte.to_N b.
Proof.
  apply (proj2 (clean_command_starts_with_letter ascii_runtime example_frame)).
  reflexivity.
Defined.

(** X19. A header of bytes that are not ASCII letters has no effect on the
    result: the frame with the header and the frame without it clean to the
    same text. *)
Theorem clean_command_ignores_header (rt : python_runtime)
    (header payload : list byte) :
  Forall (λ b, is_ascii_letter b = false) header →
  clean_command rt (header ++ payload) = clean_command rt payload.
Proof.
  intros Hh.
  destruct (find_start_cases payload) as [Hno|(h2 & b & rest & -> & Hh2 & Hb)].
  - unfold clean_command. rewrite !find_start_none; [done..|].
    by apply Forall_app.
  - rewrite app_assoc.
    rewrite (clean_command_header rt (header ++ h2)) by (by try apply Forall_app).
    by rewrite clean_command_header.
Qed.

Lemma clean_command_ignores_header_witness :
  clean_command ascii_runtime ([x18; x27; x01; x03; x03] ++ raw_of "light.x on")
  = clean_command ascii_runtime (raw_of "light.x on").
Proof.
  apply (clean_command_ignores_header ascii_runtime
           [x18; x27; x01; x03; x03] (raw_of "light.x on")).
  repeat (apply List.Forall_cons; [reflexivity|]). apply List.Forall_nil.
Defined.

(** What the decoder yields is made of scalar values and is no longer than
    what it reads. *)
Lemma decode_utf8_ignore_bounds (n : nat) (bs : list N) :
  (length bs ≤ n)%nat →
  Forall is_scalar (decode_utf8_ignore bs)
  ∧ (length (decode_utf8_ignore bs) ≤ length bs)%nat.
Proof.
  revert bs. induction n as [|n IH]; intros bs Hlen.
  { destruct bs; [by split|simpl in Hlen; lia]. }
  destruct bs as [|b0 r0]; [by split|]. simpl in Hlen.
  assert (H0 : Forall is_scalar (decode_utf8_ignore r0)
               ∧ (length (decode_utf8_ignore r0) ≤ length r0)%nat)
    by (apply IH; lia).
  assert (Hstep : ∀ (c : N) (r : list N),
            is_scalar c → (length r ≤ n)%nat → (length r < length (b0 :: r0))%nat →
            Forall is_scalar (c :: decode_utf8_ignore r)
            ∧ (length (c :: decode_utf8_ignore r) ≤ length (b0 :: r0))%nat).
  { intros c r Hc Hr Hlt. destruct (IH r Hr) as [Hs Hl].
    split; [by constructor|]. simpl in *. lia. }
  assert (Hskip : ∀ r : list N,
            (length r ≤ n)%nat → (length r ≤ length (b0 :: r0))%nat →
            Forall is_scalar (decode_utf8_ignore r)
            ∧ (length (decode_utf8_ignore r) ≤ length (b0 :: r0))%nat).
  { intros r Hr Hle. destruct (IH r Hr) as [Hs Hl]. split; [done|]. lia. }
  assert (Hnil : Forall is_scalar (@nil N)
                 ∧ (length (@nil N) ≤ length (b0 :: r0))%nat)
    by (split; [constructor|simpl; lia]).
  cbn [decode_utf8_ignore]. unfold is_continuation.
  destruct (N.ltb_spec b0 128).
  { apply Hstep; [unfold is_scalar; lia|lia|simpl; lia]. }
  destruct (N.ltb_spec b0 194); [apply Hskip; simpl; lia|].
  destruct (N.ltb_spec b0 224).
  { destruct r0 as [|b1 r1]; [apply Hnil|]. simpl in Hlen.
    destruct (N.leb_spec 128 b1), (N.leb_spec b1 191); cbn [andb];
      try (apply Hskip; simpl; lia).
    apply Hstep; [unfold is_scalar; lia|lia|simpl; lia]. }
  destruct (N.ltb_spec b0 240).
  { destruct r0 as [|b1 r1]; [apply Hnil|]. simpl in Hlen.
    destruct (N.leb_spec 128 b1), (N.leb_spec b1 191), (N.ltb_spec b1 160),
      (N.eqb_spec b0 224), (N.eqb_spec b0 237); cbn [andb orb negb];
      try (apply Hskip; simpl; lia); try lia.
    all: destruct r1 as [|b2 r2]; [apply Hnil|]; simpl in Hlen.
    all: destruct (N.leb_spec 128 b2), (N.leb_spec b2 191); cbn [andb];
      try (apply Hskip; simpl; lia).
    all: apply Hstep; [unfold is_scalar; lia|lia|simpl; lia]. }
  destruct (N.ltb_spec b0 245); [|apply Hskip; simpl; lia].
  destruct r0 as [|b1 r1]; [apply Hnil|]. simpl in Hlen.
  destruct (N.leb_spec 128 b1), (N.leb_spec b1 191), (N.ltb_spec b1 144),
    (N.eqb_spec b0 240), (N.eqb_spec b0 244); cbn [andb orb negb];
    try (apply Hskip; simpl; lia); try lia.
  all: destruct r1 as [|b2 r2]; [apply Hnil|]; simpl in Hlen.
  all: destruct (N.leb_spec 128 b2), (N.leb_spec b2 191); cbn [andb negb];
    try (apply Hskip; simpl; lia).
  all: destruct r2 as [|b3 r3]; [apply Hnil|]; simpl in Hlen.
  all: destruct (N.leb_spec 128 b3), (N.leb_spec b3 191); cbn [andb];
    try (apply Hskip; simpl; lia).
  all: apply Hstep; [unfold is_scalar; lia|lia|simpl; lia].
Qed.

Lemma strip_sublist (rt : python_runtime) (P : N → Prop) (s : text) :
  (Forall P s → Forall P (strip rt s))
  ∧ (length (strip rt s) ≤ length s)%nat.
Proof.
  destruct (strip_decompose rt s) as (l & r & Hs & _ & _). split.
  - intros H. rewrite Hs in H.
    apply Forall_app in H as [_ H]. by apply Forall_app in H as [H _].
  - rewrite Hs at 2. rewrite !length_app. lia.
Qed.

(** X20. The text [clean_command] returns is made of Unicode scalar values
    only, whatever the bytes of the frame: no surrogate and nothing above
    U+10FFFF comes out of the decoding. It has at most as many characters as
    the frame has bytes. *)
Theorem clean_command_scalar (rt : python_runtime) (raw : list byte) :
  Forall is_scalar (clean_command rt raw)
  ∧ (length (clean_command rt raw) ≤ length raw)%nat.
Proof.
  unfold clean_command. destruct (find_start 0 raw) as [start|]; [|split].
  - destruct (decode_utf8_ignore_bounds _ (Byte.to_N <$> drop start raw) (le_n _))
      as [Hs Hl].
    destruct (strip_sublist rt is_scalar
                (decode_utf8_ignore (Byte.to_N <$> drop start raw))) as [Hs' Hl'].
    split; [auto|]. rewrite length_fmap, length_drop in Hl. lia.
  - constructor.
  - simpl. lia.
Qed.

Lemma decode_utf8_ignore_encode_app (t : text) (rest : list N) :
  Forall is_scalar t →
  decode_utf8_ignore ((t ≫= utf8_encode) ++ rest) = t ++ decode_utf8_ignore rest.
Proof.
  induction 1 as [|c t Hc _ IH]; [done|].
  rewrite bind_cons, <- app_assoc, decode_utf8_ignore_encode by done.
  by rewrite IH.
Qed.

(** X21. Decoding with [errors="ignore"] drops a byte that cannot start a
    sequence (a stray continuation byte, 0xC0, 0xC1, or 0xF5 and above) and
    keeps the text around it: well-formed UTF-8 before and after such a byte
    decodes to the two texts, one after the other. *)
Theorem decode_drops_invalid_byte (t1 t2 : text) (b : N) :
  Forall is_scalar t1 → Forall is_scalar t2 →
  (128 ≤ b < 194 ∨ 245 ≤ b)%N →
  decode_utf8_ignore ((t1 ≫= utf8_encode) ++ b :: (t2 ≫= utf8_encode))
  = t1 ++ t2.
Proof.
  intros H1 H2 Hb.
  rewrite decode_utf8_ignore_encode_app by done.
  rewrite decode_utf8_ignore_invalid_start by done.
  by rewrite decode_utf8_ignore_encode_text.
Qed.

Lemma decode_drops_invalid_byte_witness :
  decode_utf8_ignore
    (([108%N; 233%N] ≫= utf8_encode) ++ 255%N :: ([8364%N] ≫= utf8_encode))
  = [108%N; 233%N] ++ [8364%N].
Proof.
  apply (decode_drops_invalid_byte [108%N; 233%N] [8364%N] 255%N).
  - repeat (apply List.Forall_cons; [unfold is_scalar; lia|]). apply List.Forall_nil.
  - repeat (apply List.Forall_cons; [unfold is_scalar; lia|]). apply List.Forall_nil.
  - lia.
Defined.

(** ** Properties of [bytes_hex] *)

Lemma join_cons (sep p : text) (ps : list text) :
  ps ≠ [] → join sep (p :: ps) = p ++ sep ++ join sep ps.
Proof. by destruct ps. Qed.

Lemma bytes_hex_cons (b : byte) (raw : list byte) :
  raw ≠ [] →
  bytes_hex (b :: raw) = format_02X b ++ [32%N] ++ bytes_hex raw.
Proof.
  intros Hne. unfold bytes_hex. rewrite fmap_cons, join_cons; [done|].
  by destruct raw.
Qed.

Lemma hex_digit_value (d : N) :
  (d < 16)%N →
  ((48 ≤ hex_digit d ≤ 57)%N ∨ (65 ≤ hex_digit d ≤ 70)%N)
  ∧ hex_value (hex_digit d) = Some d.
Proof.
  intros Hd. unfold hex_digit, hex_value.
  destruct (N.ltb_spec d 10).
  - destruct (N.leb_spec 48 (48 + d)), (N.leb_spec (48 + d) 57); try lia.
    simpl. split; [lia|]. f_equal. lia.
  - destruct (N.leb_spec 48 (55 + d)), (N.leb_spec (55 + d) 57),
      (N.leb_spec 65 (55 + d)), (N.leb_spec (55 + d) 70); try lia.
    simpl. split; [lia|]. f_equal. lia.
Qed.

Lemma format_02X_alphabet (b : byte) :
  Forall (λ c, (48 ≤ c ≤ 57)%N ∨ (65 ≤ c ≤ 70)%N) (format_02X b).
Proof.
  pose proof (Byte.to_N_bounded b) as Hb. unfold format_02X.
  set (n := Byte.to_N b) in *. clearbody n.
  assert (n / 16 < 16)%N by (apply N.Div0.div_lt_upper_bound; lia).
  assert (n mod 16 < 16)%N by (apply N.mod_lt; lia).
  apply List.Forall_cons; [by apply hex_digit_value|].
  apply List.Forall_cons; [by apply hex_digit_value|].
  apply List.Forall_nil.
Qed.

Lemma parse_hex_format (b : byte) :
  ∃ h l, format_02X b = [h; l]
    ∧ h ≠ 32%N ∧ l ≠ 32%N
    ∧ ∃ hv lv, hex_value h = Some hv ∧ hex_value l = Some lv
        ∧ Byte.of_N (16 * hv + lv) = Some b.
Proof.
  pose proof (Byte.to_N_bounded b) as Hb.
  pose proof (Byte.of_to_N b) as Hof.
  pose proof (format_02X_alphabet b) as Ha.
  unfold format_02X in *.
  set (n := Byte.to_N b) in *. clearbody n.
  assert (Hq : (n / 16 < 16)%N) by (apply N.Div0.div_lt_upper_bound; lia).
  assert (Hr : (n mod 16 < 16)%N) by (apply N.mod_lt; lia).
  apply Forall_cons in Ha as [Hh Ha]. apply Forall_cons in Ha as [Hl _].
  do 2 eexists. split; [reflexivity|]. split; [lia|]. split; [lia|].
  exists (n / 16)%N, (n mod 16)%N. split_and!.
  - by apply hex_digit_value.
  - by apply hex_digit_value.
  - by rewrite <- N.Div0.div_mod.
Qed.

Lemma bytes_hex_nil (raw : list byte) : bytes_hex raw = [] → raw = [].
Proof.
  destruct raw as [|b raw]; [done|].
  destruct (parse_hex_format b) as (h & l & Hf & _).
  destruct raw as [|b' raw].
  - unfold bytes_hex. simpl join. by rewrite Hf.
  - rewrite bytes_hex_cons by done. by rewrite Hf.
Qed.

Lemma bytes_hex_lookup (raw : list byte) (i : nat) (b : byte) :
  raw !! i = Some b →
  bytes_hex raw !! (3 * i)%nat = Some (hex_digit (Byte.to_N b / 16))
  ∧ bytes_hex raw !! (3 * i + 1)%nat = Some (hex_digit (Byte.to_N b mod 16))
  ∧ ((S i < length raw)%nat → bytes_hex raw !! (3 * i + 2)%nat = Some 32%N).
Proof.
  revert i. induction raw as [|b0 raw IH]; intros i Hi; [done|].
  destruct raw as [|b1 raw].
  { destruct i as [|i]; [|done]. simpl in Hi. simplify_eq.
    unfold bytes_hex, format_02X. simpl. split_and!; [done|done|lia]. }
  rewrite bytes_hex_cons by done. unfold format_02X at 1.
  cbn [app].
  destruct i as [|i].
  { simpl in Hi. simplify_eq. simpl. done. }
  replace (3 * S i)%nat with (S (S (S (3 * i)))) by lia.
  replace (S (S (S (3 * i))) + 1)%nat with (S (S (S (3 * i + 1)))) by lia.
  replace (S (S (S (3 * i))) + 2)%nat with (S (S (S (3 * i + 2)))) by lia.
  cbn [lookup list_lookup].
  destruct (IH i Hi) as (Hh & Hl & Hs).
  split_and!; [done|done|].
  intros Hlen. apply Hs. simpl in Hlen |- *. lia.
Qed.

(** The outline of a dump: its length, its alphabet and its two ends. *)
Lemma bytes_hex_outline (raw : list byte) :
  length (bytes_hex raw) = (3 * length raw - 1)%nat
  ∧ Forall (λ c, c = 32%N ∨ (48 ≤ c ≤ 57)%N ∨ (65 ≤ c ≤ 70)%N) (bytes_hex raw)
  ∧ (bytes_hex raw = [] ↔ raw = [])
  ∧ (∀ c, head (bytes_hex raw) = Some c → c ≠ 32%N)
  ∧ (∀ c, last (bytes_hex raw) = Some c → c ≠ 32%N).
Proof.
  assert (Hall : ∀ b, Forall (λ c, c = 32%N ∨ (48 ≤ c ≤ 57)%N ∨ (65 ≤ c ≤ 70)%N)
                             (format_02X b)).
  { intros b. eapply Forall_impl; [apply format_02X_alphabet|]. simpl. auto. }
  induction raw as [|b raw (IHlen & IHall & IHnil & IHhead & IHlast)].
  { split_and!; [done|constructor|done|done|done]. }
  destruct (parse_hex_format b) as (h & l & Hf & Hh & Hl & _).
  destruct raw as [|b' raw].
  { unfold bytes_hex. simpl join. rewrite Hf. split_and!; [done| |done|..].
    - rewrite <- Hf. apply Hall.
    - by intros c [= <-].
    - by intros c [= <-]. }
  rewrite bytes_hex_cons by done. split_and!.
  - rewrite !length_app, IHlen, Hf. simpl. lia.
  - apply Forall_app. split; [apply Hall|]. apply Forall_app. split; [|done].
    repeat constructor.
  - rewrite Hf. done.
  - rewrite Hf. by intros c [= <-].
  - intros c Hc. apply IHlast. rewrite Hf in Hc.
    assert (Hne : bytes_hex (b' :: raw) ≠ []) by (intros H%IHnil; done).
    destruct (bytes_hex (b' :: raw)) as [|x xs] eqn:Hx; [done|].
    change ([h; l] ++ [32%N] ++ x :: xs) with ([h; l; 32%N] ++ x :: xs) in Hc.
    by rewrite last_app_cons in Hc.
Qed.

(** X22. The dump [bytes_hex] makes of a frame holds two hexadecimal digits
    in upper case for every byte and one space between two bytes, and nothing
    else: it is empty for the empty frame and [3 * n - 1] characters long for
    a frame of [n] bytes; byte [i] of the frame gives the characters at
    [3 * i] and [3 * i + 1], the digit of its high half and then the digit of
    its low half, and every byte but the last is followed by one space at
    [3 * i + 2]. *)
Theorem bytes_hex_shape (raw : list byte) :
  length (bytes_hex raw) = (3 * length raw - 1)%nat
  ∧ Forall (λ c, c = 32%N ∨ (48 ≤ c ≤ 57)%N ∨ (65 ≤ c ≤ 70)%N) (bytes_hex raw)
  ∧ (bytes_hex raw = [] ↔ raw = [])
  ∧ (∀ c, head (bytes_hex raw) = Some c → c ≠ 32%N)
  ∧ (∀ c, last (bytes_hex raw) = Some c → c ≠ 32%N)
  ∧ (∀ i b, raw !! i = Some b →
       ∃ h l hv lv,
         bytes_hex raw !! (3 * i)%nat = Some h
         ∧ bytes_hex raw !! (3 * i + 1)%nat = Some l
         ∧ h = hex_digit (Byte.to_N b / 16)
         ∧ l = hex_digit (Byte.to_N b mod 16)
         ∧ ((48 ≤ h ≤ 57)%N ∨ (65 ≤ h ≤ 70)%N)
         ∧ ((48 ≤ l ≤ 57)%N ∨ (65 ≤ l ≤ 70)%N)
         ∧ hex_value h = Some hv ∧ hex_value l = Some lv
         ∧ (16 * hv + lv)%N = Byte.to_N b
         ∧ ((S i < length raw)%nat →
            bytes_hex raw !! (3 * i + 2)%nat = Some 32%N)).
Proof.
  destruct (bytes_hex_outline raw) as (Hlen & Hall & Hnil & Hhead & Hlast).
  split; [done|]. split; [done|]. split; [done|]. split; [done|].
  split; [done|].
  intros i b Hi. destruct (bytes_hex_lookup raw i b Hi) as (Hh & Hl & Hs).
  pose proof (Byte.to_N_bounded b) as Hb.
  assert (Hhi : (Byte.to_N b / 16 < 16)%N).
  { apply N.Div0.div_lt_upper_bound. lia. }
  assert (Hlo : (Byte.to_N b mod 16 < 16)%N) by (apply N.mod_lt; lia).
  destruct (hex_digit_value _ Hhi) as [Hha Hhv].
  destruct (hex_digit_value _ Hlo) as [Hla Hlv].
  exists (hex_digit (Byte.to_N b / 16)), (hex_digit (Byte.to_N b mod 16)),
    (Byte.to_N b / 16)%N, (Byte.to_N b mod 16)%N.
  split; [done|]. split; [done|]. split; [done|]. split; [done|].
  split; [done|]. split; [done|]. split; [done|]. split; [done|].
  split; [|done]. symmetry. apply N.Div0.div_mod.
Qed.

Lemma parse_hex_pair (h l hv lv : N) (b : byte) (x : N) (xs : text) :
  hex_value h = Some hv → hex_value l = Some lv →
  Byte.of_N (16 * hv + lv) = Some b →
  parse_hex (h :: l :: 32%N :: x :: xs) = cons b <$> parse_hex (x :: xs).
Proof. intros Hh Hl Hb. simpl. by rewrite Hh, Hl, Hb. Qed.

(** X23. A frame can be read back from its dump: parsing the pairs of
    hexadecimal digits of [bytes_hex raw] gives [raw] again, so two different
    frames never have the same dump. *)
Theorem bytes_hex_round_trip (raw raw' : list byte) :
  parse_hex (bytes_hex raw) = Some raw
  ∧ (bytes_hex raw = bytes_hex raw' → raw = raw').
Proof.
  assert (Hrt : ∀ r, parse_hex (bytes_hex r) = Some r).
  { induction r as [|b r IH]; [done|].
    destruct (parse_hex_format b) as (h & l & Hf & Hh & Hl & hv & lv & Hhv & Hlv & Hb).
    destruct r as [|b' r].
    { unfold bytes_hex. simpl join. rewrite Hf. simpl. by rewrite Hhv, Hlv, Hb. }
    rewrite bytes_hex_cons by done. rewrite Hf.
    destruct (bytes_hex (b' :: r)) as [|x xs] eqn:Hx.
    { by apply bytes_hex_nil in Hx. }
    cbn [app]. rewrite (parse_hex_pair h l hv lv b x xs) by done.
    by rewrite IH. }
  split; [done|]. intros Heq.
  pose proof (Hrt raw) as H1. rewrite Heq, Hrt in H1. by simplify_eq.
Qed.


(** ** Properties of [BRI_MAP] *)

Lemma split_on_go_piece (sep : N) (p cur s : text) :
  sep ∉ p →
  split_on_go sep cur (p ++ s) = split_on_go sep (reverse p ++ cur) s.
Proof.
  revert cur. induction p as [|c p IH]; intros cur Hno; [done|].
  apply not_elem_of_cons in Hno as [Hc Hp]. simpl.
  destruct (N.eqb_spec c sep); [done|].
  rewrite IH by done. by rewrite reverse_cons, <- app_assoc.
Qed.

(** Splitting what [join] put together gives the pieces back, when no piece
    holds the separator. *)
Lemma split_on_join (sep : N) (items : list text) :
  items ≠ [] → Forall (λ x, sep ∉ x) items →
  split_on sep (join [sep] items) = items.
Proof.
  intros Hne Hitems. induction Hitems as [|p ps Hp Hps IH]; [done|].
  unfold split_on in *. destruct ps as [|q ps].
  - simpl join. rewrite <- (app_nil_r p) at 1.
    rewrite split_on_go_piece by done. simpl.
    by rewrite app_nil_r, reverse_involutive.
  - rewrite join_cons by done. rewrite split_on_go_piece by done.
    simpl. rewrite N.eqb_refl, app_nil_r, reverse_involutive.
    f_equal. by apply IH.
Qed.

Lemma split_on_go_length (sep : N) (cur s : text) :
  length (split_on_go sep cur s) = S (length (filter (λ c, c = sep) s)).
Proof.
  revert cur. induction s as [|c s IH]; intros cur; [done|]. simpl.
  destruct (N.eqb_spec c sep) as [->|Hc].
  - rewrite filter_cons_True by done. simpl. by rewrite IH.
  - rewrite filter_cons_False by done. apply IH.
Qed.

Lemma int_each_ok (rt : python_runtime) (items : list text) (ns : list Z) :
  int_each rt items = Ok ns ↔ Forall2 (λ x n, py_int rt x = Some n) items ns.
Proof.
  revert ns. induction items as [|x items IH]; intros ns; simpl.
  - split; [intros [= <-]; constructor|by intros ->%Forall2_nil_inv_l].
  - destruct (py_int rt x) as [n|] eqn:Hx.
    + destruct (int_each rt items) as [ms|e] eqn:Hrest.
      * split.
        -- intros [= <-]. constructor; [done|]. by apply IH.
        -- intros (n' & ms' & Hn & Hms & ->)%Forall2_cons_inv_l.
           apply IH in Hms. by simplify_eq.
      * split; [done|].
        intros (n' & ms' & _ & Hms & ->)%Forall2_cons_inv_l.
        by apply IH in Hms.
    + split; [done|].
      intros (n' & ms' & Hn & _)%Forall2_cons_inv_l. congruence.
Qed.

Lemma int_each_error (rt : python_runtime) (items : list text) (e : exn) :
  int_each rt items = Raised e →
  is_ValueError e = true ∧ Exists (λ x, py_int rt x = None) items.
Proof.
  induction items as [|x items IH]; simpl; [done|].
  destruct (py_int rt x) as [n|] eqn:Hx.
  - destruct (int_each rt items) as [ms|e'] eqn:Hrest; [done|].
    intros [= <-]. destruct (IH eq_refl) as [? ?]. split; [done|].
    by apply Exists_cons_tl.
  - intros [= <-]. split; [done|]. by apply Exists_cons_hd.
Qed.

(** X24. [BRI_MAP] is [[100, 60, 20, 0]] when the environment variable is
    not set. When it is set, the value is cut at every comma and [int] is
    applied to every piece: the result has one integer per piece, one more
    than there are commas; a list of pieces that [int] accepts, joined by
    commas, comes back as their integers; and a piece that [int] refuses,
    such as the empty piece of an empty value or of a comma at the end,
    makes the import raise a [ValueError]. *)
Theorem BRI_MAP_parsing (rt : python_runtime) :
  BRI_MAP rt None = Ok [100; 60; 20; 0]%Z
  ∧ (∀ value ns, BRI_MAP rt (Some value) = Ok ns →
       length ns = S (length (filter (λ c, c = 44%N) value)))
  ∧ (∀ items ns,
       items ≠ [] → Forall (λ x, 44%N ∉ x) items →
       Forall2 (λ x n, py_int rt x = Some n) items ns →
       BRI_MAP rt (Some (join [44%N] items)) = Ok ns)
  ∧ (∀ value e, BRI_MAP rt (Some value) = Raised e →
       is_ValueError e = true
       ∧ Exists (λ x, py_int rt x = None) (split_on 44 value))
  ∧ (∀ items,
       items ≠ [] → Forall (λ x, 44%N ∉ x) items →
       Exists (λ x, py_int rt x = None) items →
       ∃ msg, BRI_MAP rt (Some (join [44%N] items)) = Raised (ValueError msg))
  ∧ (∃ msg, BRI_MAP rt (Some []) = Raised (ValueError msg)).
Proof.
  unfold BRI_MAP. simpl getenv. split_and!.
  - vm_compute. reflexivity.
  - intros value ns Hok. apply int_each_ok in Hok.
    apply Forall2_length in Hok. rewrite <- Hok. apply split_on_go_length.
  - intros items ns Hne Hno Hall. rewrite split_on_join by done.
    by apply int_each_ok.
  - intros value e. apply int_each_error.
  - intros items Hne Hno Hbad. rewrite split_on_join by done.
    destruct (int_each rt items) as [ns|e] eqn:Hres.
    + apply int_each_ok in Hres. apply Exists_exists in Hbad as (x & Hx & Hnone).
      apply list_elem_of_lookup in Hx as [i Hi].
      destruct (Forall2_lookup_l _ _ _ _ _ Hres Hi) as (n & _ & Hn). congruence.
    + destruct (int_each_error rt items e Hres) as [He _].
      destruct e; try done. eauto.
  - by eexists.
Qed.

Lemma BRI_MAP_parsing_witness :
  BRI_MAP ascii_runtime (Some (join [44%N] [txt "255"; txt " 128"; txt "+0"]))
  = Ok [255; 128; 0]%Z.
Proof.
  apply (proj1 (proj2 (proj2 (BRI_MAP_parsing ascii_runtime)))
           [txt "255"; txt " 128"; txt "+0"] [255; 128; 0]%Z).
  - discriminate.
  - repeat (apply List.Forall_cons;
            [apply (bool_decide_unpack _); vm_compute; exact I|]).
    apply List.Forall_nil.
  - repeat (apply Forall2_cons_2; [reflexivity|]). apply Forall2_nil_2.
Defined.

(** ** The handler and the header of the frame *)

(** X25. The handler looks at the frame through [clean_command] only: two
    frames that differ in a header of bytes that are not ASCII letters, sent
    by the same peer while the hub and the socket behave the same, give the
    same run, event for event. *)
Theorem handle_ignores_header (rt : python_runtime) (cfg : config)
    (conn : connection) (header payload : list byte) :
  Forall (λ b, is_ascii_letter b = false) header →
  handle rt cfg
    {| peername := peername conn; readline := Ok (header ++ payload);
       hub := hub conn; close_raises := close_raises conn;
       wait_closed_raises := wait_closed_raises conn |}
  = handle rt cfg
      {| peername := peername conn; readline := Ok payload;
         hub := hub conn; close_raises := close_raises conn;
         wait_closed_raises := wait_closed_raises conn |}.
Proof.
  intros Hh.
  assert (Hclean : clean_command rt (header ++ payload) = clean_command rt payload).
  { destruct (find_start_cases payload) as [Hno|(h2 & b & rest & -> & Hh2 & Hb)].
    - unfold clean_command. rewrite !find_start_none; [done..|].
      by apply Forall_app.
    - rewrite app_assoc.
      rewrite (clean_command_header rt (header ++ h2)) by (by try apply Forall_app).
      by rewrite clean_command_header. }
  unfold handle. cbn [readline peername hub]. rewrite !bind_lift_ok.
  cbv zeta. by rewrite Hclean.
Qed.

Lemma handle_ignores_header_witness :
  handle ascii_runtime example_config
    {| peername := txt "192.0.2.7";
       readline := Ok ([x18; x27; x01; x03] ++ raw_of "light.bulb1 off");
       hub := λ _ _, Response 200 []; close_raises := None;
       wait_closed_raises := None |}
  = handle ascii_runtime example_config
      {| peername := txt "192.0.2.7"; readline := Ok (raw_of "light.bulb1 off");
         hub := λ _ _, Response 200 []; close_raises := None;
         wait_closed_raises := None |}.
Proof.
  apply (handle_ignores_header ascii_runtime example_config
           (connection_of [] (Response 200 []))
           [x18; x27; x01; x03] (raw_of "light.bulb1 off")).
  repeat (apply List.Forall_cons; [reflexivity|]). apply List.Forall_nil.
Defined.
